(** * Timing reconciliation and track assembly of [run_align_concat_audio.py]

    A shallow embedding of [code/audio_align/run_align_concat_audio.py]:
    the slot records are Python dictionaries held in a store and reached
    through references, numbers are IEEE binary64 values (Python's [float])
    and unbounded integers (Python's [int]), audio buffers are lists of
    samples, and every Python exception is an explicit [Raise] result.

    A decimal literal such as [0.7] denotes the nearest binary64 value, as
    it does in Python.  The samples are [float32] values; each of them is a
    binary64 value too, and the code only copies samples and adds zeros,
    so a buffer is a list of floats.  What the code takes from its
    libraries and from the file system (the parser of [float], the decoded
    clips, the stretch primitive) is a parameter of the model. *)

From Stdlib Require Import ZArith List Bool Lia Floats String Ascii DecimalString
  Permutation Sorted.
From Stdlib Require DecimalN DecimalPos.
From stdpp Require Import gmap strings.

Set Warnings "-inexact-float,-register-all".

Local Open Scope Z_scope.

(** ** Exceptions and the error monad *)

(** The Python exceptions the modelled code can raise.  [DecodeError] stands
    for whatever [librosa.load] raises on a file it cannot decode. *)
Inductive exn : Type :=
  | KeyError
  | ValueError
  | TypeError
  | ZeroDivisionError
  | OverflowError
  | DecodeError.

Inductive result (A : Type) : Type :=
  | Ok (a : A)
  | Raise (e : exn).
Arguments Ok {A} a.
Arguments Raise {A} e.

Definition bind {A B : Type} (r : result A) (k : A -> result B) : result B :=
  match r with
  | Ok a => k a
  | Raise e => Raise e
  end.

Notation "'let*' x ':=' r 'in' k" := (bind r (fun x => k))
  (at level 10, x name, r at level 100, k at level 200).
Notation "'let*' ' p ':=' r 'in' k" := (bind r (fun p => k))
  (at level 10, p pattern, r at level 100, k at level 200).

Definition is_ok {A : Type} (r : result A) : bool :=
  match r with Ok _ => true | Raise _ => false end.

(** ** Python floats *)

Module PyFloat.

(** [math.isnan]: the only value that differs from itself. *)
Definition is_nan (x : float) : bool := negb (PrimFloat.eqb x x).

(** The same test on the specification side of a float. *)
Definition sf_nan (f : spec_float) : bool :=
  match f with S754_nan => true | _ => false end.

(** The outcome of a comparison read as "less than or equal". *)
Definition cmp_le (c : option comparison) : bool :=
  match c with Some Lt | Some Eq => true | _ => false end.

(** [a > b] on floats. *)
Definition gtb (a b : float) : bool := PrimFloat.ltb b a.

(** The builtin [max(a, b)]: the first argument is kept unless the second
    compares strictly greater. *)
Definition py_max (a b : float) : float := if gtb b a then b else a.

(** [a / b] on floats; Python raises for a zero divisor where IEEE would
    give an infinity or a NaN. *)
Definition py_div (a b : float) : result float :=
  if PrimFloat.eqb b 0%float then Raise ZeroDivisionError
  else Ok (a / b)%float.

(** Conversions from [int] raise instead of producing an infinity. *)
Definition finite_or_overflow (r : float) : result float :=
  if PrimFloat.is_finite r then Ok r else Raise OverflowError.

(** [float(n)] for an integer [n]: rounded to nearest-even,
    [OverflowError] when [n] is beyond the binary64 range. *)
Definition float_of_Z (n : Z) : result float :=
  finite_or_overflow (SF2Prim (binary_normalize prec emax n 0 false)).

(** [float * int]: the integer operand is converted first. *)
Definition mul_int (x : float) (n : Z) : result float :=
  let* f := float_of_Z n in Ok (x * f)%float.

(** [a / b] on integers (true division): the correctly rounded quotient.
    The quotient is computed with more bits than the precision and a sticky
    bit, then rounded once. *)
Definition int_truediv (a b : Z) : result float :=
  if b =? 0 then Raise ZeroDivisionError
  else
    let neg := xorb (a <? 0) (b <? 0) in
    let a' := Z.abs a in
    let b' := Z.abs b in
    if a' =? 0 then Ok (if neg then (-0)%float else 0%float)
    else
      let k := Z.max 0 (Z.log2 b' - Z.log2 a' + 56) in
      let n := Z.shiftl a' k in
      let q := n / b' in
      let sticky := if n mod b' =? 0 then 0 else 1 in
      let m := 2 * q + sticky in
      finite_or_overflow
        (SF2Prim (binary_normalize prec emax (if neg then - m else m) (- (k + 1)) false)).

(** Round half to even of [m * 2^e] for a positive mantissa [m]. *)
Definition round_half_even (m e : Z) : Z :=
  if 0 <=? e then m * 2 ^ e
  else
    let d := 2 ^ (- e) in
    let q := m / d in
    let r := m mod d in
    match 2 * r ?= d with
    | Lt => q
    | Gt => q + 1
    | Eq => if Z.even q then q else q + 1
    end.

(** [int(round(x))]: [round] with one argument returns the nearest
    integer, ties to even; it raises on NaN and on the infinities. *)
Definition py_round (x : float) : result Z :=
  match Prim2SF x with
  | S754_nan => Raise ValueError
  | S754_infinity _ => Raise OverflowError
  | S754_zero _ => Ok 0
  | S754_finite s m e => Ok (cond_Zopp s (round_half_even (Zpos m) e))
  end.

(** [np.maximum] and [np.minimum] on scalars: a NaN first operand wins. *)
Definition np_maximum (a b : float) : float :=
  if is_nan a || gtb a b then a else b.

Definition np_minimum (a b : float) : float :=
  if is_nan a || PrimFloat.ltb a b then a else b.

(** [np.clip(x, lo, hi)] is [minimum(maximum(x, lo), hi)]. *)
Definition np_clip (x lo hi : float) : float :=
  np_minimum (np_maximum x lo) hi.

End PyFloat.

(** ** Sequences: Python and NumPy slicing *)

Module PySeq.

(** A slice bound [k] of a sequence of length [n]: negative bounds count
    from the end, and every bound is clamped into [0, n]. *)
Definition clamp_index (n k : Z) : Z :=
  if k <? 0 then Z.max 0 (n + k) else Z.min k n.

(** [l[:k]] *)
Definition slice_to {A : Type} (l : list A) (k : Z) : list A :=
  take (Z.to_nat (clamp_index (Z.of_nat (length l)) k)) l.

(** [np.zeros(n)] *)
Definition np_zeros (n : Z) : result (list float) :=
  if n <? 0 then Raise ValueError else Ok (replicate (Z.to_nat n) 0%float).

(** [np.pad(a, (0, pad), mode="constant")] for [pad >= 0]. *)
Definition np_pad_tail (a : list float) (pad : Z) : list float :=
  a ++ replicate (Z.to_nat pad) 0%float.

(** The region [lo:hi] of an array of length [n], as (first index, size). *)
Definition region (n lo hi : Z) : Z * Z :=
  let a := clamp_index n lo in
  let b := clamp_index n hi in
  (a, Z.max 0 (b - a)).

(** [t[lo:hi] = v] on a one-dimensional array: the shapes must agree, a
    one-element [v] is broadcast, anything else is a [ValueError]. *)
Definition slice_assign (t : list float) (lo hi : Z) (v : list float)
  : result (list float) :=
  let '(a, len) := region (Z.of_nat (length t)) lo hi in
  let put (w : list float) :=
    take (Z.to_nat a) t ++ w ++ drop (Z.to_nat (a + len)) t in
  if Z.of_nat (length v) =? len then Ok (put v)
  else
    match v with
    | [x] => Ok (put (replicate (Z.to_nat len) x))
    | _ => Raise ValueError
    end.

End PySeq.

(** ** Python values and the store of dictionaries *)

(** What [json.loads] gives for one line, and what the code stores back. *)
Inductive jvalue : Type :=
  | JNull
  | JBool (b : bool)
  | JInt (n : Z)
  | JFloat (f : float)
  | JStr (s : string)
  | JArr (l : list jvalue)
  | JObj (l : list (string * jvalue)).

(** A reference to a dictionary object. *)
Definition loc : Type := nat.

(** The dictionaries of the run, by reference.  A list of segments is a
    list of references: appending a segment to [processed] shares it. *)
Abbreviation record := (gmap string jvalue).
Abbreviation store := (gmap nat (gmap string jvalue)).

(** [seg[k] = v] *)
Definition set_item (st : store) (seg : loc) (k : string) (v : jvalue) : store :=
  <[seg := <[k := v]> (st !!! seg)]> st.

(** [seg[k]] *)
Definition get_item (r : record) (k : string) : result jvalue :=
  match r !! k with
  | Some v => Ok v
  | None => Raise KeyError
  end.

(** [seg[k]] for a field the code has stored as a float. *)
Definition get_float (r : record) (k : string) : result float :=
  let* v := get_item r k in
  match v with
  | JFloat f => Ok f
  | _ => Raise TypeError
  end.

(** ** Formatting the clip file name *)

(** [format(n, "04d")]: decimal, sign first, zero-padded to width 4. *)
Definition format_04d (n : Z) : string :=
  let digits := NilZero.string_of_uint (N.to_uint (Z.abs_N n)) in
  let width := if n <? 0 then 3%nat else 4%nat in
  let zeros := string_of_list_ascii (repeat "0"%char (width - String.length digits)) in
  let sign := if n <? 0 then "-"%string else ""%string in
  (sign ++ zeros ++ digits)%string.

(** [f"seg_{idx:04d}.mp3"]: the [d] format accepts an [int] (and a [bool],
    which is one); every other value raises. *)
Definition seg_file_name (idx : jvalue) : result string :=
  match idx with
  | JInt n => Ok ("seg_" ++ format_04d n ++ ".mp3")%string
  | JBool b => Ok ("seg_" ++ format_04d (if b then 1 else 0) ++ ".mp3")%string
  | JFloat _ | JStr _ => Raise ValueError
  | JNull | JArr _ | JObj _ => Raise TypeError
  end.

(** ** The run's inputs *)

(** The command-line arguments the core reads. *)
Record args : Type := {
  max_segments : option Z;
  max_rel_stretch : float;
  max_abs_stretch : float
}.

(** What the segments directory holds under a file name: nothing, a file
    [librosa.load] fails on, or a file that decodes (at the output sample
    rate, mono) to the given samples. *)
Inductive clip_file : Type :=
  | Missing
  | Corrupt
  | Audio (samples : list float).

(** What the run prints. *)
Inductive event : Type :=
  | WarnMissing (idx : jvalue) (path : string)
  | SegInfo (i n : Z) (idx : jvalue) (start_sec end_sec slot_duration : float)
  | StretchRate (rate : float).

(** What one iteration of the assembly loop finds for its slot before the
    alignment: nothing to place ([continue]), or a clip that is not empty. *)
Inductive resolved : Type :=
  | NoClip (evs : list event)
  | Clip (start_sample slot_len : Z) (audio : list float)
      (cur_dur slot_duration : float) (info : event).

(** What one iteration of the assembly loop decides for its slot: nothing
    is written ([continue]), or [aligned] goes to [start_sample]. *)
Inductive placement : Type :=
  | Skip
  | Place (start_sample slot_len : Z) (aligned : list float).

(** ** Stable sorting by a float key *)

(** [list.sort(key=...)] compares the keys with [<] only and is stable.
    Insertion from the right gives the same list whenever [<] orders the
    keys, that is when no key is a NaN.  With a NaN among the keys the
    order Python produces is another one.  Such a run raises in the
    assembly loop, at [round] of the NaN at the latest, in the model and
    in Python; the records being reached in another order, the exception
    that comes first can be another one.  What is proved about the order
    assumes that no key is a NaN. *)
Fixpoint insert_by_key {A : Type} (x : float * A) (l : list (float * A))
  : list (float * A) :=
  match l with
  | [] => [x]
  | y :: l' =>
    if PrimFloat.ltb (fst y) (fst x) then y :: insert_by_key x l'
    else x :: y :: l'
  end.

Definition sort_by_key {A : Type} (l : list (float * A)) : list (float * A) :=
  fold_right insert_by_key [] l.

(** [mapM] for the error monad, left to right. *)
Fixpoint map_result {A B : Type} (f : A -> result B) (l : list A) : result (list B) :=
  match l with
  | [] => Ok []
  | x :: l' =>
    let* y := f x in
    let* ys := map_result f l' in
    Ok (y :: ys)
  end.

Section Core.

(** [float(s)] for a string [s]: Python's parser of float literals,
    [None] where it raises [ValueError]. *)
Variable float_of_string : string -> option float.

(** [librosa.effects.time_stretch(audio, rate=rate)], the external stretch
    primitive. *)
Variable time_stretch : list float -> float -> list float.

(** *** SlotTimeline *)

(** The builtin [float(v)]. *)
Definition py_float (v : jvalue) : result float :=
  match v with
  | JFloat f => Ok f
  | JInt n => PyFloat.float_of_Z n
  | JBool b => Ok (if b then 1%float else 0%float)
  | JStr s =>
    match float_of_string s with
    | Some f => Ok f
    | None => Raise ValueError
    end
  | JNull | JArr _ | JObj _ => Raise TypeError
  end.

Definition get_slot_times (seg : record) : result (float * float) :=
  match seg !! "start_sec"%string, seg !! "end_sec"%string with
  | Some s, Some e =>
    let* a := py_float s in
    let* b := py_float e in
    Ok (a, b)
  | _, _ =>
    match seg !! "start"%string, seg !! "end"%string with
    | Some s, Some e =>
      let* a := py_float s in
      let* b := py_float e in
      Ok (a, b)
    | _, _ => Raise KeyError
    end
  end.

(** The body of the loop that adds the time helper fields to one segment. *)
Definition add_time_fields (st : store) (seg : loc) : result store :=
  let* '(start_sec, end_sec) := get_slot_times (st !!! seg) in
  let st := set_item st seg "_start_sec" (JFloat start_sec) in
  let st := set_item st seg "_end_sec" (JFloat end_sec) in
  let st := set_item st seg "_duration_sec"
              (JFloat (PyFloat.py_max 0%float (end_sec - start_sec)%float)) in
  Ok st.

Fixpoint add_all_time_fields (st : store) (segs : list loc) : result store :=
  match segs with
  | [] => Ok st
  | seg :: segs' =>
    let* st' := add_time_fields st seg in
    add_all_time_fields st' segs'
  end.

(** The helper fields of the segment [l] in [st'] hold the times read from
    its record in [st0] and the duration clamped at zero. *)
Definition fields_set (st0 st' : store) (l : loc) : Prop :=
  exists s e,
    get_slot_times (st0 !!! l) = Ok (s, e) /\
    (st' !!! l) !! "_start_sec"%string = Some (JFloat s) /\
    (st' !!! l) !! "_end_sec"%string = Some (JFloat e) /\
    (st' !!! l) !! "_duration_sec"%string
      = Some (JFloat (PyFloat.py_max 0%float (e - s)%float)).

(** [processed.sort(key=lambda x: x["_start_sec"])]: the keys are computed
    first, then the references are sorted by them. *)
Definition sort_processed (st : store) (processed : list loc) : result (list loc) :=
  let* keyed := map_result
      (fun seg => let* k := get_float (st !!! seg) "_start_sec" in Ok (k, seg))
      processed in
  Ok (map snd (sort_by_key keyed)).

(** The keys the code adds to every segment it keeps. *)
Definition helper_fields : list string :=
  ["_start_sec"; "_end_sec"; "_duration_sec"]%string.

(** The sort key of a segment, once its helper fields are set. *)
Definition start_key (st : store) (seg : loc) : float :=
  match get_float (st !!! seg) "_start_sec" with
  | Ok f => f
  | Raise _ => nan
  end.

(** The segments that are kept: [all_segments[:max_segments]] when the
    option is given. *)
Definition truncate (a : args) (all_segments : list loc) : list loc :=
  match max_segments a with
  | Some n => PySeq.slice_to all_segments n
  | None => all_segments
  end.

(** Lines 125 to 137: the optional truncation, the helper fields, the sort.
    [processed] is a new list holding the same references. *)
Definition build_processed (a : args) (st : store) (all_segments : list loc)
  : result (store * list loc) :=
  let all_segments := truncate a all_segments in
  let* st' := add_all_time_fields st all_segments in
  let* processed := sort_processed st' all_segments in
  Ok (st', processed).

(** *** SegmentAligner *)

(** Crop or zero-pad to [slot_len] (lines 184 to 188 and 199 to 203). *)
Definition crop_pad (audio : list float) (slot_len : Z) : list float :=
  if slot_len <=? Z.of_nat (length audio) then PySeq.slice_to audio slot_len
  else PySeq.np_pad_tail audio (slot_len - Z.of_nat (length audio)).

(** The stretch decision of lines 173 to 180. *)
Definition need_stretch (a : args) (slot_duration cur_dur : float) : result bool :=
  let diff_sec := (slot_duration - cur_dur)%float in
  let* rel_diff :=
    PyFloat.py_div (PrimFloat.abs diff_sec) (PyFloat.py_max slot_duration 1e-6%float) in
  Ok (PyFloat.gtb rel_diff (max_rel_stretch a)
      && PyFloat.gtb (PrimFloat.abs diff_sec) (max_abs_stretch a)).

(** The rate handed to the stretch primitive (lines 192 to 194). *)
Definition stretch_rate (cur_dur slot_duration : float) : result float :=
  let* rate := PyFloat.py_div cur_dur slot_duration in
  Ok (PyFloat.np_clip rate 0.7%float 1.3%float).

(** Lines 172 to 203: the aligned buffer for a clip that is not empty. *)
Definition align_clip (a : args) (audio : list float) (cur_dur slot_duration : float)
    (slot_len : Z) : result (list float * list event) :=
  let* need := need_stretch a slot_duration cur_dur in
  if negb need then Ok (crop_pad audio slot_len, [])
  else
    let* rate := stretch_rate cur_dur slot_duration in
    let stretched := time_stretch audio rate in
    Ok (crop_pad stretched slot_len, [StretchRate rate]).

(** *** TrackAssembler *)

(** Lines 144 to 149: the slot's times and its window in samples. *)
Definition slot_window (sr : Z) (seg : record)
  : result (float * float * float * Z * Z) :=
  let* start_sec := get_float seg "_start_sec" in
  let* end_sec := get_float seg "_end_sec" in
  let* slot_duration := get_float seg "_duration_sec" in
  let* start_scaled := PyFloat.mul_int start_sec sr in
  let* start_sample := PyFloat.py_round start_scaled in
  let* end_scaled := PyFloat.mul_int end_sec sr in
  let* end_sample := PyFloat.py_round end_scaled in
  Ok (start_sec, end_sec, slot_duration, start_sample, end_sample).

(** [seg.get("index", i)] *)
Definition slot_index (i : Z) (seg : record) : jvalue :=
  default (JInt i) (seg !! "index"%string).

(** Lines 143 to 170 of one loop iteration: the slot's sample window and
    its clip; [i] is the loop counter, [n] is [len(processed)]. *)
Definition resolve_slot (fs : string -> clip_file) (sr : Z)
    (i n : Z) (seg : record) : result resolved :=
  let idx := slot_index i seg in
  let* '(start_sec, end_sec, slot_duration, start_sample, end_sample) :=
    slot_window sr seg in
  if end_sample <=? start_sample then Ok (NoClip [])
  else
    let slot_len := end_sample - start_sample in
    let* seg_path := seg_file_name idx in
    match fs seg_path with
    | Missing => Ok (NoClip [WarnMissing idx seg_path])
    | Corrupt => Raise DecodeError
    | Audio audio =>
      let info := SegInfo i n idx start_sec end_sec slot_duration in
      let cur_len := Z.of_nat (length audio) in
      let* cur_dur := PyFloat.int_truediv cur_len sr in
      if cur_len =? 0 then Ok (NoClip [info])
      else Ok (Clip start_sample slot_len audio cur_dur slot_duration info)
    end.

(** Lines 143 to 203: what the iteration decides to write. *)
Definition plan_slot (a : args) (fs : string -> clip_file) (sr : Z)
    (i n : Z) (seg : record) : result (placement * list event) :=
  let* r := resolve_slot fs sr i n seg in
  match r with
  | NoClip evs => Ok (Skip, evs)
  | Clip start_sample slot_len audio cur_dur slot_duration info =>
    let* '(aligned, evs) := align_clip a audio cur_dur slot_duration slot_len in
    Ok (Place start_sample slot_len aligned, info :: evs)
  end.

(** Lines 206 to 208: the write into the track. *)
Definition write_slot (total_samples : Z) (track : list float)
    (start_sample slot_len : Z) (aligned : list float) : result (list float) :=
  let end_pos := Z.min (start_sample + slot_len) total_samples in
  let aligned := PySeq.slice_to aligned (end_pos - start_sample) in
  PySeq.slice_assign track start_sample end_pos aligned.

(** The positions of a track of [total_samples] samples that a placement
    assigns: the region of its slice, empty for a skipped slot. *)
Definition covers (total_samples : Z) (p : placement) (pos : Z) : bool :=
  match p with
  | Skip => false
  | Place start_sample slot_len _ =>
    let '(a, len) :=
      PySeq.region total_samples start_sample
        (Z.min (start_sample + slot_len) total_samples) in
    (a <=? pos) && (pos <? a + len)
  end.

(** One iteration of the assembly loop on the track and the printed log. *)
Definition process_slot (a : args) (fs : string -> clip_file) (sr total_samples : Z)
    (st : store) (n i : Z) (seg : loc) (s : list float * list event)
  : result (list float * list event) :=
  let '(track, log) := s in
  let* '(p, evs) := plan_slot a fs sr i n (st !!! seg) in
  match p with
  | Skip => Ok (track, log ++ evs)
  | Place start_sample slot_len aligned =>
    let* track' := write_slot total_samples track start_sample slot_len aligned in
    Ok (track', log ++ evs)
  end.

(** [for i, seg in enumerate(processed, start=i)] *)
Fixpoint assemble_loop (a : args) (fs : string -> clip_file) (sr total_samples : Z)
    (st : store) (n i : Z) (processed : list loc) (s : list float * list event)
  : result (list float * list event) :=
  match processed with
  | [] => Ok s
  | seg :: rest =>
    let* s' := process_slot a fs sr total_samples st n i seg s in
    assemble_loop a fs sr total_samples st n (i + 1) rest s'
  end.

(** Step 4: the final truncation or padding. *)
Definition finalize (total_samples : Z) (track : list float) : list float :=
  let len := Z.of_nat (length track) in
  if total_samples <? len then PySeq.slice_to track total_samples
  else if len <? total_samples then PySeq.np_pad_tail track (total_samples - len)
  else track.

(** Steps 3 and 4 on the sorted slots: allocate, fill, finalize. *)
Definition assemble (a : args) (fs : string -> clip_file) (sr total_samples : Z)
    (st : store) (processed : list loc) : result (list float * list event) :=
  let* track := PySeq.np_zeros total_samples in
  let* '(track, log) :=
    assemble_loop a fs sr total_samples st (Z.of_nat (length processed)) 1
      processed (track, []) in
  Ok (finalize total_samples track, log).

(** [main] from the loaded segments to the track that is written out:
    the final store, the track and what was printed. *)
Definition main (a : args) (fs : string -> clip_file) (sr total_samples : Z)
    (st : store) (all_segments : list loc)
  : result (store * list float * list event) :=
  let* '(st', processed) := build_processed a st all_segments in
  let* '(track, log) := assemble a fs sr total_samples st' processed in
  Ok (st', track, log).

End Core.

(** ** Sample runs

    Small inputs used to evaluate the model: a parser that rejects every
    string, a stand-in for the stretch primitive that flips the sign of
    the samples (so that a stretched buffer is told apart from a cropped
    one), and a few stores and segment directories at 4 samples per
    second. *)

Module Demo.

Definition no_parse (s : string) : option float := None.

Definition flip_stretch (audio : list float) (rate : float) : list float :=
  map PrimFloat.opp audio.

Definition demo_args : args :=
  {| max_segments := None; max_rel_stretch := 0.2; max_abs_stretch := 0.4 |}.

Definition first_only : args :=
  {| max_segments := Some 1; max_rel_stretch := 0.2; max_abs_stretch := 0.4 |}.

(** A record as loaded from the JSONL file. *)
Definition json_rec (s e : float) : record :=
  <["start_sec"%string := JFloat s]> {["end_sec"%string := JFloat e]}.

(** The store after [build_processed], or the store as it was on an error. *)
Definition built (a : args) (st : store) (segs : list loc) : store :=
  match build_processed no_parse a st segs with
  | Ok (st', _) => st'
  | Raise _ => st
  end.

(** Three slots [(0,1)], [(1,2.5)], [(2.5,3)]; a one-second clip for each
    of the first two, none for the third. *)
Definition three_slots : store :=
  <[0%nat := json_rec 0 1]> (<[1%nat := json_rec 1 2.5]> {[2%nat := json_rec 2.5 3]}).

Definition two_clips (path : string) : clip_file :=
  if String.eqb path "seg_0001.mp3" then Audio (replicate 4 1%float)
  else if String.eqb path "seg_0002.mp3" then Audio (replicate 4 2%float)
  else Missing.

(** Two slots [(0,2)] and [(1,3)] that overlap on the samples 4 to 7. *)
Definition overlapping : store :=
  <[0%nat := json_rec 0 2]> {[1%nat := json_rec 1 3]}.

Definition overlap_clips (path : string) : clip_file :=
  if String.eqb path "seg_0001.mp3" then Audio (replicate 8 1%float)
  else if String.eqb path "seg_0002.mp3" then Audio (replicate 8 2%float)
  else Missing.

Definition overlap_first_only (path : string) : clip_file :=
  if String.eqb path "seg_0001.mp3" then Audio (replicate 8 1%float) else Missing.

(** One slot [(0,1)] whose clip is five seconds long, and one whose clip is
    a quarter of a second short. *)
Definition one_slot : store := {[0%nat := json_rec 0 1]}.

Definition long_clip (path : string) : clip_file :=
  if String.eqb path "seg_0001.mp3" then Audio (replicate 20 1%float) else Missing.

Definition short_clip (path : string) : clip_file :=
  if String.eqb path "seg_0001.mp3" then Audio [0.5; 0.25; 0.125]%float else Missing.

Definition first_clip (path : string) : clip_file :=
  if String.eqb path "seg_0001.mp3" then Audio (replicate 4 1%float) else Missing.

Definition whole_clip (path : string) : clip_file := Audio (replicate 12 1%float).

(** The track a run returns, if it returns. *)
Definition track_of (r : result (store * list float * list event))
  : option (list float) :=
  match r with
  | Ok (_, track, _) => Some track
  | Raise _ => None
  end.

(** A clip file that exists and does not decode, and one with no samples. *)
Definition corrupt_clip (path : string) : clip_file :=
  if String.eqb path "seg_0001.mp3" then Corrupt else Missing.

Definition empty_clip (path : string) : clip_file :=
  if String.eqb path "seg_0001.mp3" then Audio [] else Missing.

(** Two records given in the order late, early. *)
Definition late_first : store :=
  <[0%nat := json_rec 5 6]> {[1%nat := json_rec 0 1]}.

End Demo.

(** ** The loader *)

Section Loader.

(** [str.strip()] and [json.loads], the library functions the loader
    calls; [json.loads] raises on a line that is not a JSON document. *)
Variable strip : string -> string.
Variable json_loads : string -> result jvalue.

(** [load_translations_jsonl] on the lines of the file, in file order:
    every line is stripped, an empty one is skipped, every other one is
    parsed and appended. *)
Fixpoint load_translations_jsonl (lines : list string) : result (list jvalue) :=
  match lines with
  | [] => Ok []
  | line :: rest =>
    let line := strip line in
    if String.eqb line "" then load_translations_jsonl rest
    else
      let* obj := json_loads line in
      let* segments := load_translations_jsonl rest in
      Ok (obj :: segments)
  end.

(** [not line], after the strip. *)
Definition blank (line : string) : bool := String.eqb (strip line) "".

End Loader.

(** ** Reading a clip file name back *)

(** The integer a string formatted by [format_04d] stands for: an optional
    sign, then decimal digits with any number of leading zeros. *)
Definition read_04d (s : string) : option Z :=
  match s with
  | String "-" s' => option_map (fun n => - Z.of_N n)
                       (option_map N.of_uint (NilEmpty.uint_of_string s'))
  | _ => option_map Z.of_N (option_map N.of_uint (NilEmpty.uint_of_string s))
  end.

(** ** Sample runs at the edges

    Slots that leave the track on either side, records with an [index]
    field, a NaN start, and a small JSONL file with stand-ins for the strip
    and the JSON parser. *)

Module Edge.

Import Demo.

(** One slot [(2,4)] that runs past the end of a three-second track, one
    that starts after the end, one across time zero, one before it. *)
Definition tail_slot : store := {[0%nat := json_rec 2 4]}.

Definition past_end : store := {[0%nat := json_rec 3.5 5]}.

Definition across_zero : store := {[0%nat := json_rec (-0.5) 1]}.

Definition before_zero : store := {[0%nat := json_rec (-2) (-1)]}.

(** The slot [(0,1)] with an [index] field. *)
Definition with_index (v : jvalue) : store :=
  {[0%nat := <["index"%string := v]> (json_rec 0 1)]}.

(** A slot whose start is a NaN. *)
Definition nan_start : store := {[0%nat := json_rec nan 1]}.

(** A record with a [null] under [start_sec] and a complete plain pair, and
    one with both pairs whose plain start does not parse. *)
Definition null_start_sec : record :=
  <["start_sec"%string := JNull]>
    (<["start"%string := JInt 3]> {["end"%string := JInt 4]}).

Definition bad_plain_start : record :=
  <["start"%string := JStr "soon"]> (<["end"%string := JInt 4]> (json_rec 1 2.5)).

(** An empty line as the file iterator yields it. *)
Definition newline : string := String "010"%char EmptyString.

(** A strip that knows the empty line only, and a parser that knows the
    empty object only. *)
Definition strip_newline (s : string) : string :=
  if String.eqb s newline then ""%string else s.

Definition loads_empty_object (s : string) : result jvalue :=
  if String.eqb s "{}" then Ok (JObj []) else Raise ValueError.

(** An object and an empty line. *)
Definition good_lines : list string := ["{}"%string; newline].

End Edge.

(** * Properties *)

(** ** The error monad *)

Lemma bind_Ok_inv {A B : Type} (r : result A) (k : A -> result B) (b : B) :
  bind r k = Ok b -> exists a, r = Ok a /\ k a = Ok b.
Proof. destruct r as [a|e]; simpl; [eauto | discriminate]. Qed.

Lemma bind_Raise_inv {A B : Type} (r : result A) (k : A -> result B) (e : exn) :
  bind r k = Raise e -> r = Raise e \/ exists a, r = Ok a /\ k a = Raise e.
Proof. destruct r as [a|e']; simpl; [eauto | intros [= ->]; auto]. Qed.

(** Splits a successful chain of binds into its steps. *)
Tactic Notation "inv_bind" hyp(H) :=
  let x := fresh "x" in
  let E := fresh "E" in
  apply bind_Ok_inv in H; destruct H as (x & E & H).

Tactic Notation "inv_bind" hyp(H) "as" simple_intropattern(p) ident(E) :=
  apply bind_Ok_inv in H; destruct H as (p & E & H).

(** ** Order facts on binary64 values

    The comparisons of primitive floats are specified by [SFcompare] on
    their decoded form; the order facts are proved there and transported. *)

Module PyFloatFacts.
Import PyFloat.

Ltac sf_cases :=
  repeat match goal with
  | s : bool |- _ => destruct s
  | |- context [Pos.compare_cont Eq ?a ?b] =>
      change (Pos.compare_cont Eq a b) with (Pos.compare a b)
  | H : context [Pos.compare_cont Eq ?a ?b] |- _ =>
      change (Pos.compare_cont Eq a b) with (Pos.compare a b) in H
  | |- context [Z.compare ?a ?b] => destruct (Z.compare_spec a b)
  | |- context [Pos.compare ?a ?b] => destruct (Pos.compare_spec a b)
  | H : context [Z.compare ?a ?b] |- _ => destruct (Z.compare_spec a b)
  | H : context [Pos.compare ?a ?b] |- _ => destruct (Pos.compare_spec a b)
  end.

Lemma SFcompare_antisym x y :
  SFcompare y x = option_map CompOpp (SFcompare x y).
Proof.
  destruct x as [sx|sx| |sx mx ex], y as [sy|sy| |sy my ey]; simpl; try reflexivity;
    sf_cases; simpl; try reflexivity; try lia.
Qed.

Lemma SFcompare_nan x y :
  SFcompare x y = None <-> sf_nan x = true \/ sf_nan y = true.
Proof.
  destruct x as [sx|sx| |sx mx ex], y as [sy|sy| |sy my ey]; simpl; split; intros H;
    try discriminate; auto; destruct H; discriminate.
Qed.

Lemma SFcompare_refl x : sf_nan x = false -> SFcompare x x = Some Eq.
Proof.
  destruct x as [s|s| |s m e]; simpl; try discriminate; intros _.
  - reflexivity.
  - destruct s; reflexivity.
  - change (Pos.compare_cont Eq m m) with (Pos.compare m m).
    rewrite Z.compare_refl, Pos.compare_refl. destruct s; reflexivity.
Qed.

Lemma SFcompare_le_trans x y z :
  cmp_le (SFcompare x y) = true -> cmp_le (SFcompare y z) = true ->
  cmp_le (SFcompare x z) = true.
Proof.
  destruct x as [sx|sx| |sx mx ex], y as [sy|sy| |sy my ey], z as [sz|sz| |sz mz ez];
    simpl; try discriminate; try reflexivity; intros H1 H2;
    sf_cases; simpl in *; try discriminate; try reflexivity; try lia.
Qed.

(** Equal keys compare alike against a third one. *)
Lemma SFcompare_eq_compat x y z :
  SFcompare x y = Some Eq -> SFcompare x z = SFcompare y z.
Proof.
  destruct x as [sx|sx| |sx mx ex], y as [sy|sy| |sy my ey], z as [sz|sz| |sz mz ez];
    simpl; try discriminate; try reflexivity; intros H1;
    sf_cases; simpl in *; try discriminate; try reflexivity; try lia.
Qed.

Lemma is_nan_spec x : is_nan x = sf_nan (Prim2SF x).
Proof.
  unfold is_nan. rewrite FloatAxioms.eqb_spec. unfold SFeqb.
  destruct (sf_nan (Prim2SF x)) eqn:E.
  - destruct (Prim2SF x); try discriminate. reflexivity.
  - rewrite SFcompare_refl by exact E. reflexivity.
Qed.

Lemma leb_cmp a b : PrimFloat.leb a b = cmp_le (SFcompare (Prim2SF a) (Prim2SF b)).
Proof. rewrite FloatAxioms.leb_spec. reflexivity. Qed.

Lemma ltb_leb a b : PrimFloat.ltb a b = true -> PrimFloat.leb a b = true.
Proof.
  rewrite FloatAxioms.ltb_spec, FloatAxioms.leb_spec. unfold SFltb, SFleb.
  destruct (SFcompare _ _) as [[ | | ]|]; congruence.
Qed.

Lemma ltb_asym a b : PrimFloat.ltb a b = true -> PrimFloat.ltb b a = false.
Proof.
  rewrite !FloatAxioms.ltb_spec. unfold SFltb. rewrite (SFcompare_antisym (Prim2SF a)).
  destruct (SFcompare _ _) as [[ | | ]|]; simpl; congruence.
Qed.

Lemma ltb_not_nan a b :
  PrimFloat.ltb a b = true -> is_nan a = false /\ is_nan b = false.
Proof.
  rewrite FloatAxioms.ltb_spec, !is_nan_spec. unfold SFltb.
  destruct (SFcompare _ _) eqn:E; try discriminate. intros _.
  destruct (sf_nan (Prim2SF a)) eqn:Ea, (sf_nan (Prim2SF b)) eqn:Eb; auto;
    assert (SFcompare (Prim2SF a) (Prim2SF b) = None) by (apply SFcompare_nan; auto);
    congruence.
Qed.

Lemma leb_not_nan a b :
  PrimFloat.leb a b = true -> is_nan a = false /\ is_nan b = false.
Proof.
  rewrite FloatAxioms.leb_spec, !is_nan_spec. unfold SFleb.
  destruct (SFcompare _ _) eqn:E; try discriminate. intros _.
  destruct (sf_nan (Prim2SF a)) eqn:Ea, (sf_nan (Prim2SF b)) eqn:Eb; auto;
    assert (SFcompare (Prim2SF a) (Prim2SF b) = None) by (apply SFcompare_nan; auto);
    congruence.
Qed.

Lemma leb_total a b :
  is_nan a = false -> is_nan b = false ->
  PrimFloat.ltb a b = false -> PrimFloat.leb b a = true.
Proof.
  rewrite !is_nan_spec, FloatAxioms.ltb_spec, FloatAxioms.leb_spec. unfold SFltb, SFleb. intros Ha Hb.
  rewrite (SFcompare_antisym (Prim2SF a)).
  destruct (SFcompare (Prim2SF a) (Prim2SF b)) as [[ | | ]|] eqn:E; simpl; try congruence.
  apply SFcompare_nan in E. destruct E; congruence.
Qed.

Lemma leb_trans a b c :
  PrimFloat.leb a b = true -> PrimFloat.leb b c = true -> PrimFloat.leb a c = true.
Proof. rewrite !leb_cmp. apply SFcompare_le_trans. Qed.

Lemma leb_not_gt a b : PrimFloat.leb a b = true -> PrimFloat.ltb b a = false.
Proof.
  rewrite FloatAxioms.ltb_spec, FloatAxioms.leb_spec. unfold SFltb, SFleb.
  rewrite (SFcompare_antisym (Prim2SF a)).
  destruct (SFcompare _ _) as [[ | | ]|]; simpl; congruence.
Qed.

Lemma ltb_leb_trans a b c :
  PrimFloat.ltb a b = true -> PrimFloat.leb b c = true -> PrimFloat.ltb a c = true.
Proof.
  intros H1 H2.
  destruct (ltb_not_nan _ _ H1) as [Ha Hb].
  destruct (leb_not_nan _ _ H2) as [_ Hc].
  destruct (PrimFloat.ltb a c) eqn:E; [reflexivity|].
  pose proof (leb_total _ _ Ha Hc E) as H3.
  pose proof (leb_trans _ _ _ H2 H3) as H4.
  apply leb_not_gt in H4. congruence.
Qed.

Lemma ltb_trans a b c :
  PrimFloat.ltb a b = true -> PrimFloat.ltb b c = true -> PrimFloat.ltb a c = true.
Proof. intros H1 H2. eapply ltb_leb_trans; eauto using ltb_leb. Qed.

Lemma ltb_not_eqb a b : PrimFloat.ltb a b = true -> PrimFloat.eqb b a = false.
Proof.
  rewrite FloatAxioms.ltb_spec, FloatAxioms.eqb_spec. unfold SFltb, SFeqb.
  rewrite (SFcompare_antisym (Prim2SF a)).
  destruct (SFcompare _ _) as [[ | | ]|]; simpl; congruence.
Qed.

Lemma abs_nan x : is_nan (PrimFloat.abs x) = is_nan x.
Proof. rewrite !is_nan_spec, FloatAxioms.abs_spec. destruct (Prim2SF x); reflexivity. Qed.

Lemma sub_not_nan x y :
  is_nan (x - y)%float = false -> is_nan x = false /\ is_nan y = false.
Proof.
  rewrite !is_nan_spec, FloatAxioms.sub_spec. unfold SF64sub, SFsub.
  destruct (Prim2SF x), (Prim2SF y); simpl; auto; discriminate.
Qed.

Lemma is_finite_spec x :
  PrimFloat.is_finite x = true ->
  match Prim2SF x with S754_zero _ | S754_finite _ _ _ => True | _ => False end.
Proof.
  unfold PrimFloat.is_finite, PrimFloat.is_infinity.
  change (PrimFloat.is_nan x) with (is_nan x).
  rewrite is_nan_spec, FloatAxioms.eqb_spec, FloatAxioms.abs_spec.
  destruct (Prim2SF x) as [s|s| |s m e]; simpl; auto.
  - destruct s; vm_compute; discriminate.
  - discriminate.
Qed.

Lemma eqb_zero_spec y :
  PrimFloat.eqb y 0%float = false ->
  match Prim2SF y with S754_zero _ => False | _ => True end.
Proof.
  rewrite FloatAxioms.eqb_spec. destruct (Prim2SF y); auto. vm_compute. discriminate.
Qed.

(** Rounding a nonnegative mantissa never yields a NaN. *)
Lemma shr_1_nonneg mrs : 0 <= shr_m mrs -> 0 <= shr_m (shr_1 mrs).
Proof.
  destruct mrs as [m r s]; simpl. destruct m as [|p|p]; simpl; try lia.
  destruct p; simpl; lia.
Qed.

Lemma iter_pos_shr_1_nonneg p mrs :
  0 <= shr_m mrs -> 0 <= shr_m (SpecFloat.iter_pos shr_1 p mrs).
Proof.
  revert mrs. induction p as [p IH|p IH|]; intros mrs H; simpl.
  - apply IH, IH, shr_1_nonneg, H.
  - apply IH, IH, H.
  - apply shr_1_nonneg, H.
Qed.

Lemma shr_fexp_nonneg prec emax m e l :
  0 <= m -> 0 <= shr_m (fst (shr_fexp prec emax m e l)).
Proof.
  intros H. unfold shr_fexp, shr.
  assert (H0 : 0 <= shr_m (shr_record_of_loc m l)).
  { destruct l as [|[ | | ]]; simpl; exact H. }
  destruct (fexp prec emax (Zdigits2 m + e) - e); simpl; auto.
  apply iter_pos_shr_1_nonneg. exact H0.
Qed.

Lemma round_nearest_even_nonneg m l : 0 <= m -> 0 <= round_nearest_even m l.
Proof.
  intros H. destruct l as [|[ | | ]]; simpl; try lia.
  destruct (Z.even m); lia.
Qed.

Lemma binary_round_aux_not_nan prec emax s m e l :
  0 <= m -> sf_nan (binary_round_aux prec emax s m e l) = false.
Proof.
  intros H. unfold binary_round_aux.
  pose proof (shr_fexp_nonneg prec emax m e l H) as H1.
  destruct (shr_fexp prec emax m e l) as [mrs' e']. simpl in H1.
  pose proof (shr_fexp_nonneg prec emax _ e' loc_Exact
                (round_nearest_even_nonneg _ (loc_of_shr_record mrs') H1)) as H2.
  destruct (shr_fexp prec emax
              (round_nearest_even (shr_m mrs') (loc_of_shr_record mrs')) e' loc_Exact)
    as [mrs'' e''].
  simpl in H2. destruct (shr_m mrs'') as [|p|p]; simpl; try reflexivity.
  - destruct (e'' <=? emax - prec); reflexivity.
  - lia.
Qed.

Lemma SFdiv_not_nan prec emax x y :
  match x with S754_zero _ | S754_finite _ _ _ => True | _ => False end ->
  match y with S754_zero _ | S754_nan => False | _ => True end ->
  sf_nan (SFdiv prec emax x y) = false.
Proof.
  destruct x as [sx|sx| |sx mx ex], y as [sy|sy| |sy my ey]; simpl; try tauto; intros _ _.
  unfold SFdiv_core_binary.
  set (m' := match _ with Z0 => _ | _ => _ end).
  assert (Hm : 0 <= m').
  { subst m'. destruct (_ - _ - _) as [|p|p]; try lia.
    rewrite Z.shiftl_mul_pow2 by lia. lia. }
  pose proof (Z.div_eucl_eq m' (Z.pos my) ltac:(lia)) as Hq.
  pose proof (Z.mod_pos_bound m' (Z.pos my) ltac:(lia)) as Hr.
  unfold Z.modulo in Hr.
  destruct (Z.div_eucl m' (Z.pos my)) as [q r].
  apply binary_round_aux_not_nan. nia.
Qed.

(** A finite dividend over a divisor that is neither zero nor a NaN. *)
Lemma div_not_nan a b :
  PrimFloat.is_finite a = true -> is_nan b = false -> PrimFloat.eqb b 0%float = false ->
  is_nan (a / b)%float = false.
Proof.
  intros Ha Hb H0. rewrite is_nan_spec in *. rewrite FloatAxioms.div_spec.
  apply SFdiv_not_nan.
  - apply is_finite_spec, Ha.
  - apply eqb_zero_spec in H0. destruct (Prim2SF b); auto; discriminate.
Qed.

Lemma finite_or_overflow_Ok r x :
  finite_or_overflow r = Ok x -> x = r /\ PrimFloat.is_finite x = true.
Proof.
  unfold finite_or_overflow. destruct (PrimFloat.is_finite r) eqn:E; [|discriminate].
  intros [= <-]. auto.
Qed.

(** An integer quotient, when it is returned, is a finite float. *)
Lemma int_truediv_finite a b x :
  int_truediv a b = Ok x -> PrimFloat.is_finite x = true.
Proof.
  unfold int_truediv. destruct (b =? 0); [discriminate|].
  destruct (Z.abs a =? 0).
  - intros [= <-]. destruct (xorb _ _); reflexivity.
  - intros H. apply finite_or_overflow_Ok in H. tauto.
Qed.

(** The clamp: a rate that is not a NaN lands within the bounds. *)
Lemma np_clip_bounds x lo hi :
  is_nan x = false -> PrimFloat.leb lo hi = true ->
  PrimFloat.leb lo (np_clip x lo hi) = true /\ PrimFloat.leb (np_clip x lo hi) hi = true.
Proof.
  intros Hx Hlh. destruct (leb_not_nan _ _ Hlh) as [Hlo Hhi].
  assert (Hll : PrimFloat.leb lo lo = true).
  { rewrite leb_cmp, SFcompare_refl; [reflexivity|]. rewrite <- is_nan_spec. exact Hlo. }
  assert (Hhh : PrimFloat.leb hi hi = true).
  { rewrite leb_cmp, SFcompare_refl; [reflexivity|]. rewrite <- is_nan_spec. exact Hhi. }
  unfold np_clip, np_maximum, np_minimum, gtb. rewrite Hx. simpl.
  destruct (PrimFloat.ltb lo x) eqn:E1.
  - rewrite Hx. simpl. destruct (PrimFloat.ltb x hi) eqn:E2.
    + split; apply ltb_leb; assumption.
    + split; assumption.
  - rewrite Hlo. simpl. destruct (PrimFloat.ltb lo hi) eqn:E2.
    + split; assumption.
    + split; assumption.
Qed.

Lemma np_clip_above x lo hi :
  PrimFloat.leb lo hi = true -> PrimFloat.ltb hi x = true -> np_clip x lo hi = hi.
Proof.
  intros Hlh Hx. destruct (ltb_not_nan _ _ Hx) as [Hhi Hnx].
  unfold np_clip, np_maximum, np_minimum, gtb. rewrite Hnx. simpl.
  assert (E1 : PrimFloat.ltb lo x = true).
  { destruct (PrimFloat.ltb lo x) eqn:E; [reflexivity|].
    destruct (leb_not_nan _ _ Hlh) as [Hlo _].
    pose proof (leb_total _ _ Hlo Hnx E) as H1.
    pose proof (ltb_leb_trans _ _ _ Hx H1) as H2.
    apply leb_not_gt in Hlh. congruence. }
  rewrite E1, Hnx. simpl. rewrite (ltb_asym _ _ Hx). reflexivity.
Qed.

Lemma np_clip_below x lo hi :
  PrimFloat.ltb lo hi = true -> PrimFloat.ltb x lo = true -> np_clip x lo hi = lo.
Proof.
  intros Hlh Hx. destruct (ltb_not_nan _ _ Hx) as [Hnx Hlo].
  unfold np_clip, np_maximum, np_minimum, gtb. rewrite Hnx. simpl.
  rewrite (ltb_asym _ _ Hx), Hlo. simpl. rewrite Hlh. reflexivity.
Qed.

Lemma np_clip_inside x lo hi :
  PrimFloat.ltb lo x = true -> PrimFloat.ltb x hi = true -> np_clip x lo hi = x.
Proof.
  intros H1 H2. destruct (ltb_not_nan _ _ H1) as [Hlo Hnx].
  unfold np_clip, np_maximum, np_minimum, gtb. rewrite Hnx. simpl.
  rewrite H1, Hnx. simpl. rewrite H2. reflexivity.
Qed.

End PyFloatFacts.

(** ** Slices *)

Module PySeqFacts.
Import PySeq.

Lemma clamp_index_range n k : 0 <= n -> 0 <= clamp_index n k <= n.
Proof. unfold clamp_index. destruct (k <? 0) eqn:E; lia. Qed.

Lemma clamp_index_inside n k : 0 <= k <= n -> clamp_index n k = k.
Proof. unfold clamp_index. destruct (k <? 0) eqn:E; lia. Qed.

Lemma slice_to_nonneg {A : Type} (l : list A) (k : Z) :
  0 <= k -> slice_to l k = take (Z.to_nat k) l.
Proof.
  intros Hk. unfold slice_to, clamp_index.
  destruct (k <? 0) eqn:E; [lia|].
  destruct (Z.le_ge_cases k (Z.of_nat (length l))).
  - rewrite Z.min_l by lia. reflexivity.
  - rewrite Z.min_r by lia. rewrite Nat2Z.id.
    rewrite !take_ge by lia. reflexivity.
Qed.

Lemma slice_to_length {A : Type} (l : list A) (k : Z) :
  0 <= k -> Z.of_nat (length (slice_to l k)) = Z.min k (Z.of_nat (length l)).
Proof.
  intros Hk. rewrite slice_to_nonneg by exact Hk. rewrite length_take.
  destruct (Nat.min_spec (Z.to_nat k) (length l)) as [[? ->]|[? ->]]; lia.
Qed.

Lemma np_zeros_Ok n t : np_zeros n = Ok t -> 0 <= n /\ t = replicate (Z.to_nat n) 0%float.
Proof.
  unfold np_zeros. destruct (n <? 0) eqn:E; [discriminate|].
  intros [= <-]. split; [lia | reflexivity].
Qed.

Lemma np_pad_tail_length a pad :
  0 <= pad -> Z.of_nat (length (np_pad_tail a pad)) = Z.of_nat (length a) + pad.
Proof.
  intros H. unfold np_pad_tail. rewrite length_app, length_replicate. lia.
Qed.

Lemma region_range n lo hi a len :
  0 <= n -> region n lo hi = (a, len) -> 0 <= a /\ 0 <= len /\ a + len <= n.
Proof.
  intros Hn. unfold region. intros [= <- <-].
  pose proof (clamp_index_range n lo Hn). pose proof (clamp_index_range n hi Hn). lia.
Qed.

(** The shape of every successful slice assignment. *)
Lemma slice_assign_Ok t lo hi v t' :
  slice_assign t lo hi v = Ok t' ->
  exists a len w,
    region (Z.of_nat (length t)) lo hi = (a, len) /\
    Z.of_nat (length w) = len /\
    (Z.of_nat (length v) = len -> w = v) /\
    t' = take (Z.to_nat a) t ++ w ++ drop (Z.to_nat (a + len)) t.
Proof.
  unfold slice_assign. destruct (region _ lo hi) as [a len] eqn:R.
  pose proof (region_range _ _ _ _ _ (Nat2Z.is_nonneg _) R) as (Ha & Hl & Hal).
  destruct (Z.of_nat (length v) =? len) eqn:E.
  - intros [= <-]. exists a, len, v. repeat split; auto. lia.
  - destruct v as [|x [|y v]]; try discriminate. intros [= <-].
    exists a, len, (replicate (Z.to_nat len) x). repeat split; auto.
    + rewrite length_replicate. lia.
    + intros Hx. lia.
Qed.

(** Assigning to a slice never changes the length of the array. *)
Lemma slice_assign_length t lo hi v t' :
  slice_assign t lo hi v = Ok t' -> length t' = length t.
Proof.
  intros H. apply slice_assign_Ok in H. destruct H as (a & len & w & R & Hw & _ & ->).
  pose proof (region_range _ _ _ _ _ (Nat2Z.is_nonneg _) R) as (Ha & Hl & Hal).
  rewrite !length_app, length_take, length_drop. lia.
Qed.

(** Outside the assigned region the array keeps its samples. *)
Lemma slice_assign_outside t lo hi v t' a len (i : nat) :
  slice_assign t lo hi v = Ok t' ->
  region (Z.of_nat (length t)) lo hi = (a, len) ->
  ~ (a <= Z.of_nat i < a + len) ->
  t' !! i = t !! i.
Proof.
  intros H R Hi. apply slice_assign_Ok in H.
  destruct H as (a' & len' & w & R' & Hw & _ & ->).
  rewrite R in R'. injection R' as <- <-.
  pose proof (region_range _ _ _ _ _ (Nat2Z.is_nonneg _) R) as (Ha & Hl & Hal).
  destruct (Z.lt_ge_cases (Z.of_nat i) a) as [Hlt|Hge].
  - rewrite lookup_app_l by (rewrite length_take; lia).
    rewrite lookup_take_lt by lia. reflexivity.
  - rewrite lookup_app_r by (rewrite length_take; lia).
    rewrite lookup_app_r by (rewrite length_take; lia).
    rewrite lookup_drop. f_equal. rewrite length_take. lia.
Qed.

(** Inside the region, when the shapes agree, the array holds the values. *)
Lemma slice_assign_inside t lo hi v t' a len (i : nat) :
  slice_assign t lo hi v = Ok t' ->
  region (Z.of_nat (length t)) lo hi = (a, len) ->
  Z.of_nat (length v) = len ->
  a <= Z.of_nat i < a + len ->
  t' !! i = v !! (i - Z.to_nat a)%nat.
Proof.
  intros H R Hv Hi. apply slice_assign_Ok in H.
  destruct H as (a' & len' & w & R' & Hw & Hwv & ->).
  rewrite R in R'. injection R' as <- <-. rewrite (Hwv Hv).
  pose proof (region_range _ _ _ _ _ (Nat2Z.is_nonneg _) R) as (Ha & Hl & Hal).
  rewrite lookup_app_r by (rewrite length_take; lia).
  rewrite lookup_app_l by (rewrite length_take; lia).
  f_equal. rewrite length_take. lia.
Qed.

End PySeqFacts.

(** ** The aligner *)

Section AlignerFacts.

Variable time_stretch : list float -> float -> list float.

Import PyFloat PySeq PyFloatFacts PySeqFacts.

Lemma crop_pad_length audio slot_len :
  0 <= slot_len -> Z.of_nat (length (crop_pad audio slot_len)) = slot_len.
Proof.
  intros H. unfold crop_pad. destruct (slot_len <=? Z.of_nat (length audio)) eqn:E.
  - rewrite slice_to_length by exact H. lia.
  - rewrite np_pad_tail_length by lia. lia.
Qed.

Lemma crop_pad_crop audio slot_len :
  0 <= slot_len <= Z.of_nat (length audio) ->
  crop_pad audio slot_len = take (Z.to_nat slot_len) audio.
Proof.
  intros H. unfold crop_pad. destruct (slot_len <=? Z.of_nat (length audio)) eqn:E; [|lia].
  apply slice_to_nonneg. lia.
Qed.

Lemma crop_pad_pad audio slot_len :
  Z.of_nat (length audio) < slot_len ->
  crop_pad audio slot_len =
    audio ++ replicate (Z.to_nat (slot_len - Z.of_nat (length audio))) 0%float.
Proof.
  intros H. unfold crop_pad. destruct (slot_len <=? Z.of_nat (length audio)) eqn:E; [lia|].
  reflexivity.
Qed.

Lemma crop_pad_prefix audio slot_len :
  0 <= slot_len ->
  let m := Z.to_nat (Z.min (Z.of_nat (length audio)) slot_len) in
  take m (crop_pad audio slot_len) = take m audio.
Proof.
  intros H m. subst m. destruct (Z.le_gt_cases slot_len (Z.of_nat (length audio))) as [Hle|Hgt].
  - rewrite crop_pad_crop by lia. rewrite Z.min_r by lia.
    rewrite take_take. f_equal. lia.
  - rewrite crop_pad_pad by lia. rewrite Z.min_l by lia. rewrite Nat2Z.id.
    rewrite take_app_length. rewrite take_ge by lia. reflexivity.
Qed.

(** The divisor of the relative difference is never zero. *)
Lemma py_max_eps_nonzero sd :
  PrimFloat.eqb (py_max sd 1e-6%float) 0%float = false.
Proof.
  unfold py_max, gtb. destruct (PrimFloat.ltb sd 1e-6%float) eqn:E.
  - vm_compute. reflexivity.
  - destruct (PrimFloat.eqb sd 0%float) eqn:E0; [|reflexivity].
    rewrite FloatAxioms.ltb_spec in E. rewrite FloatAxioms.eqb_spec in E0.
    replace (Prim2SF 0%float) with (S754_zero false) in E0 by (vm_compute; reflexivity).
    assert (He : exists m e, Prim2SF 1e-6%float = S754_finite false m e)
      by (vm_compute; eauto).
    destruct He as (m0 & e0 & He). rewrite He in E.
    destruct (Prim2SF sd) as [s|s| |s m e]; try destruct s; simpl in *; discriminate.
Qed.

(** The stretch decision always evaluates. *)
Lemma need_stretch_eq a sd cd :
  need_stretch a sd cd =
    Ok (gtb (PrimFloat.abs (sd - cd) / py_max sd 1e-6)%float (max_rel_stretch a)
        && gtb (PrimFloat.abs (sd - cd)%float) (max_abs_stretch a)).
Proof.
  unfold need_stretch, py_div. rewrite py_max_eps_nonzero. reflexivity.
Qed.

(** On the stretch path neither duration is a NaN. *)
Lemma need_stretch_not_nan a sd cd :
  need_stretch a sd cd = Ok true -> is_nan sd = false /\ is_nan cd = false.
Proof.
  rewrite need_stretch_eq. intros [= H]. apply andb_prop in H. destruct H as [_ H].
  unfold gtb in H. apply ltb_not_nan in H. destruct H as [_ H].
  rewrite abs_nan in H. apply sub_not_nan. exact H.
Qed.

Lemma align_clip_no_stretch a audio cd sd slot_len :
  need_stretch a sd cd = Ok false ->
  align_clip time_stretch a audio cd sd slot_len = Ok (crop_pad audio slot_len, []).
Proof. unfold align_clip. intros ->. reflexivity. Qed.

Lemma align_clip_stretch a audio cd sd slot_len :
  need_stretch a sd cd = Ok true ->
  PrimFloat.eqb sd 0%float = false ->
  let rate := np_clip (cd / sd)%float 0.7%float 1.3%float in
  align_clip time_stretch a audio cd sd slot_len =
    Ok (crop_pad (time_stretch audio rate) slot_len, [StretchRate rate]).
Proof.
  unfold align_clip, stretch_rate, py_div. intros -> ->. reflexivity.
Qed.

(** What a resolved clip says about the slot and the file system. *)
Lemma resolve_slot_Clip fs sr i n seg start_sample slot_len audio cd sd info :
  resolve_slot fs sr i n seg = Ok (Clip start_sample slot_len audio cd sd info) ->
  0 < slot_len /\ audio <> [] /\
  int_truediv (Z.of_nat (length audio)) sr = Ok cd /\
  (exists start_sec end_sec,
     slot_window sr seg = Ok (start_sec, end_sec, sd, start_sample, start_sample + slot_len)) /\
  exists path,
    seg_file_name (slot_index i seg) = Ok path /\
    fs path = Audio audio.
Proof.
  unfold resolve_slot. intros H.
  inv_bind H. destruct x as [[[[start_sec end_sec] sd'] a'] b'].
  destruct (_ <=? _) eqn:Hdeg; [discriminate|].
  inv_bind H. destruct (fs _) as [ | |samples] eqn:Hfs; try discriminate.
  inv_bind H. destruct (_ =? 0) eqn:Hlen; [discriminate|].
  injection H as <- <- <- <- <- <-.
  repeat split; try assumption; try lia.
  - intros ->. simpl in Hlen. discriminate.
  - exists start_sec, end_sec. rewrite E. do 2 f_equal. lia.
  - eauto.
Qed.

(** C3. For a slot that is not degenerate and whose clip is not empty, with
    [cur_dur = clip_len / sample_rate], [diff = slot_duration - cur_dur] and
    [rel = |diff| / max(slot_duration, 1e-6)], the iteration stretches the
    clip exactly when both [rel > max_rel_stretch] and
    [|diff| > max_abs_stretch] hold; when either fails the clip is only
    cropped or padded and no stretch is reported. *)
Theorem stretch_iff_both_thresholds a fs sr i n seg
    start_sample slot_len audio cur_dur slot_duration info :
  resolve_slot fs sr i n seg
    = Ok (Clip start_sample slot_len audio cur_dur slot_duration info) ->
  PrimFloat.ltb 0%float slot_duration = true ->
  let diff := (slot_duration - cur_dur)%float in
  let rel := (PrimFloat.abs diff / py_max slot_duration 1e-6)%float in
  let both := gtb rel (max_rel_stretch a) && gtb (PrimFloat.abs diff) (max_abs_stretch a) in
  let rate := np_clip (cur_dur / slot_duration)%float 0.7%float 1.3%float in
  audio <> [] /\
  int_truediv (Z.of_nat (length audio)) sr = Ok cur_dur /\
  plan_slot time_stretch a fs sr i n seg =
    Ok (if both
        then (Place start_sample slot_len (crop_pad (time_stretch audio rate) slot_len),
              [info; StretchRate rate])
        else (Place start_sample slot_len (crop_pad audio slot_len), [info])).
Proof.
  intros Hres Hpos diff rel both rate.
  destruct (resolve_slot_Clip _ _ _ _ _ _ _ _ _ _ _ Hres) as (_ & Hne & Hdur & _).
  split; [exact Hne|]. split; [exact Hdur|].
  unfold plan_slot. rewrite Hres. simpl.
  pose proof (need_stretch_eq a slot_duration cur_dur) as Hneed.
  fold diff in Hneed. fold rel in Hneed. fold both in Hneed.
  destruct both.
  - rewrite (align_clip_stretch a audio cur_dur slot_duration slot_len Hneed
               (ltb_not_eqb _ _ Hpos)).
    reflexivity.
  - rewrite (align_clip_no_stretch a audio cur_dur slot_duration slot_len Hneed).
    reflexivity.
Qed.

(** C4. On the stretch path the rate handed to the stretch primitive is
    [cur_dur / slot_duration] clamped into [0.7, 1.3]: it lies within the
    bounds in every case, and it is the nearer bound whenever the raw
    ratio lies outside them. *)
Theorem stretch_rate_clamped a fs sr i n seg
    start_sample slot_len audio cur_dur slot_duration info :
  resolve_slot fs sr i n seg
    = Ok (Clip start_sample slot_len audio cur_dur slot_duration info) ->
  need_stretch a slot_duration cur_dur = Ok true ->
  PrimFloat.eqb slot_duration 0%float = false ->
  let ratio := (cur_dur / slot_duration)%float in
  exists rate,
    plan_slot time_stretch a fs sr i n seg =
      Ok (Place start_sample slot_len (crop_pad (time_stretch audio rate) slot_len),
          [info; StretchRate rate]) /\
    rate = np_clip ratio 0.7%float 1.3%float /\
    PrimFloat.leb 0.7%float rate = true /\
    PrimFloat.leb rate 1.3%float = true /\
    (PrimFloat.ltb 1.3%float ratio = true -> rate = 1.3%float) /\
    (PrimFloat.ltb ratio 0.7%float = true -> rate = 0.7%float) /\
    (PrimFloat.ltb 0.7%float ratio = true -> PrimFloat.ltb ratio 1.3%float = true ->
     rate = ratio).
Proof.
  intros Hres Hneed Hnz ratio.
  destruct (resolve_slot_Clip _ _ _ _ _ _ _ _ _ _ _ Hres) as (_ & _ & Hdur & _).
  destruct (need_stretch_not_nan _ _ _ Hneed) as [Hsd _].
  assert (Hratio : is_nan ratio = false).
  { apply div_not_nan; [eapply int_truediv_finite; exact Hdur | exact Hsd | exact Hnz]. }
  assert (Hle : PrimFloat.leb 0.7%float 1.3%float = true) by (vm_compute; reflexivity).
  assert (Hlt : PrimFloat.ltb 0.7%float 1.3%float = true) by (vm_compute; reflexivity).
  exists (np_clip ratio 0.7%float 1.3%float).
  split.
  { unfold plan_slot. rewrite Hres. simpl.
    rewrite (align_clip_stretch a audio cur_dur slot_duration slot_len Hneed Hnz).
    reflexivity. }
  split; [reflexivity|].
  destruct (np_clip_bounds ratio 0.7%float 1.3%float Hratio Hle) as [Hlo Hhi].
  split; [exact Hlo|]. split; [exact Hhi|].
  split; [exact (np_clip_above ratio 0.7%float 1.3%float Hle)|].
  split; [exact (np_clip_below ratio 0.7%float 1.3%float Hlt)|].
  exact (np_clip_inside ratio 0.7%float 1.3%float).
Qed.

(** C5. On the no-stretch path the aligned buffer is an exact crop or
    tail-pad of the clip: the clip's first [slot_len] samples when the clip
    is long enough, the clip followed by zeros otherwise; its first
    [min(clip_len, slot_len)] samples are those of the clip, unaltered. *)
Theorem no_stretch_crop_or_pad a fs sr i n seg
    start_sample slot_len audio cur_dur slot_duration info :
  resolve_slot fs sr i n seg
    = Ok (Clip start_sample slot_len audio cur_dur slot_duration info) ->
  need_stretch a slot_duration cur_dur = Ok false ->
  let clip_len := Z.of_nat (length audio) in
  exists aligned,
    plan_slot time_stretch a fs sr i n seg
      = Ok (Place start_sample slot_len aligned, [info]) /\
    Z.of_nat (length aligned) = slot_len /\
    (slot_len <= clip_len -> aligned = take (Z.to_nat slot_len) audio) /\
    (clip_len < slot_len ->
     aligned = audio ++ replicate (Z.to_nat (slot_len - clip_len)) 0%float) /\
    take (Z.to_nat (Z.min clip_len slot_len)) aligned
      = take (Z.to_nat (Z.min clip_len slot_len)) audio.
Proof.
  intros Hres Hneed clip_len.
  destruct (resolve_slot_Clip _ _ _ _ _ _ _ _ _ _ _ Hres) as (Hlen & _).
  exists (crop_pad audio slot_len). split.
  { unfold plan_slot. rewrite Hres. simpl.
    rewrite (align_clip_no_stretch a audio cur_dur slot_duration slot_len Hneed).
    reflexivity. }
  split; [apply crop_pad_length; lia|].
  split; [intros H; apply crop_pad_crop; lia|].
  split; [intros H; apply crop_pad_pad; exact H|].
  apply crop_pad_prefix. lia.
Qed.

End AlignerFacts.

(** ** The slot timeline *)

Section TimelineFacts.

Variable float_of_string : string -> option float.

Import PyFloat PySeq PyFloatFacts PySeqFacts.

(** The values [float()] raises on: [None], lists and dictionaries, the
    strings its parser rejects, and the integers beyond the float range. *)
Lemma py_float_raises v :
  is_ok (py_float float_of_string v) = false <->
  match v with
  | JNull | JArr _ | JObj _ => True
  | JStr s => float_of_string s = None
  | JInt n => is_ok (float_of_Z n) = false
  | JFloat _ | JBool _ => False
  end.
Proof.
  destruct v as [ |b|n|f|s|l|l]; simpl; try tauto; try (split; [discriminate|tauto]).
  destruct (float_of_string s); simpl; split; congruence.
Qed.

(** C9, as the code has it. [get_slot_times] returns the pair converted
    from [start_sec] and [end_sec] when both keys are present, otherwise
    from [start] and [end] when both are present; it raises exactly when
    neither pair is fully present or [float()] fails on a value of the pair
    it reads.  A value under a key of the other pair is never converted,
    so it cannot make the call raise. *)
Theorem get_slot_times_cases (seg : record) :
  let both_sec := is_Some (seg !! "start_sec"%string) /\ is_Some (seg !! "end_sec"%string) in
  let both_plain := is_Some (seg !! "start"%string) /\ is_Some (seg !! "end"%string) in
  let bad v := is_ok (py_float float_of_string v) = false in
  (forall s e a b,
     seg !! "start_sec"%string = Some s -> seg !! "end_sec"%string = Some e ->
     py_float float_of_string s = Ok a -> py_float float_of_string e = Ok b ->
     get_slot_times float_of_string seg = Ok (a, b)) /\
  (forall s e a b,
     ~ both_sec ->
     seg !! "start"%string = Some s -> seg !! "end"%string = Some e ->
     py_float float_of_string s = Ok a -> py_float float_of_string e = Ok b ->
     get_slot_times float_of_string seg = Ok (a, b)) /\
  (~ both_sec -> ~ both_plain -> get_slot_times float_of_string seg = Raise KeyError) /\
  (is_ok (get_slot_times float_of_string seg) = false <->
     (~ both_sec /\ ~ both_plain) \/
     (exists s e, seg !! "start_sec"%string = Some s /\ seg !! "end_sec"%string = Some e /\
                  (bad s \/ bad e)) \/
     (~ both_sec /\
      exists s e, seg !! "start"%string = Some s /\ seg !! "end"%string = Some e /\
                  (bad s \/ bad e))).
Proof.
  intros both_sec both_plain bad.
  set (conv := fun s e : jvalue =>
         let* a := py_float float_of_string s in
         let* b := py_float float_of_string e in Ok (a, b)).
  assert (Hconv : forall s e, is_ok (conv s e) = false <-> bad s \/ bad e).
  { intros s e. unfold conv, bad.
    destruct (py_float float_of_string s), (py_float float_of_string e); simpl;
      intuition congruence. }
  assert (Hsec : forall s e,
             seg !! "start_sec"%string = Some s -> seg !! "end_sec"%string = Some e ->
             get_slot_times float_of_string seg = conv s e).
  { intros s e Hs He. unfold get_slot_times. rewrite Hs, He. reflexivity. }
  assert (Hplain : ~ both_sec -> forall s e,
             seg !! "start"%string = Some s -> seg !! "end"%string = Some e ->
             get_slot_times float_of_string seg = conv s e).
  { intros Hn s e Hs He. unfold get_slot_times. rewrite Hs, He.
    destruct (seg !! "start_sec"%string) as [s1|] eqn:E1;
      destruct (seg !! "end_sec"%string) as [e1|] eqn:E2; try reflexivity.
    exfalso. apply Hn. split; eauto. }
  assert (Hnone : ~ both_sec -> ~ both_plain ->
             get_slot_times float_of_string seg = Raise KeyError).
  { intros Hn1 Hn2. unfold get_slot_times.
    destruct (seg !! "start_sec"%string) as [s1|] eqn:E1;
      destruct (seg !! "end_sec"%string) as [e1|] eqn:E2;
      try (exfalso; apply Hn1; split; eauto; fail);
      destruct (seg !! "start"%string) as [s2|] eqn:E3;
      destruct (seg !! "end"%string) as [e2|] eqn:E4;
      try (exfalso; apply Hn2; split; eauto; fail); reflexivity. }
  split; [|split; [|split]].
  - intros s e a b Hs He Ha Hb. rewrite (Hsec s e Hs He). unfold conv.
    rewrite Ha. simpl. rewrite Hb. reflexivity.
  - intros s e a b Hn Hs He Ha Hb. rewrite (Hplain Hn s e Hs He). unfold conv.
    rewrite Ha. simpl. rewrite Hb. reflexivity.
  - exact Hnone.
  - destruct (seg !! "start_sec"%string) as [s1|] eqn:E1;
      [destruct (seg !! "end_sec"%string) as [e1|] eqn:E2|].
    + (* both [_sec] keys are present *)
      rewrite (Hsec s1 e1 eq_refl eq_refl), Hconv. split.
      * intros H. right. left. exists s1, e1. auto.
      * intros [[Hn _]|[(s & e & Hs & He & Hb)|[Hn _]]].
        -- exfalso. apply Hn. split; eauto.
        -- simplify_eq. exact Hb.
        -- exfalso. apply Hn. split; eauto.
    + assert (Hn : ~ both_sec) by (intros [_ [? ?]]; discriminate).
      destruct (seg !! "start"%string) as [s2|] eqn:E3;
        [destruct (seg !! "end"%string) as [e2|] eqn:E4|].
      * rewrite (Hplain Hn s2 e2 eq_refl eq_refl), Hconv. split.
        -- intros H. right. right. split; [exact Hn|]. exists s2, e2. auto.
        -- intros [[_ Hn2]|[(s & e & Hs & He & Hb)|[_ (s & e & Hs & He & Hb)]]].
           ++ exfalso. apply Hn2. split; eauto.
           ++ discriminate.
           ++ simplify_eq. exact Hb.
      * assert (Hn2 : ~ both_plain) by (intros [_ [? ?]]; discriminate).
        rewrite (Hnone Hn Hn2). simpl. split; auto.
      * assert (Hn2 : ~ both_plain) by (intros [[? ?] _]; discriminate).
        rewrite (Hnone Hn Hn2). simpl. split; auto.
    + assert (Hn : ~ both_sec) by (intros [[? ?] _]; discriminate).
      destruct (seg !! "start"%string) as [s2|] eqn:E3;
        [destruct (seg !! "end"%string) as [e2|] eqn:E4|].
      * rewrite (Hplain Hn s2 e2 eq_refl eq_refl), Hconv. split.
        -- intros H. right. right. split; [exact Hn|]. exists s2, e2. auto.
        -- intros [[_ Hn2]|[(s & e & Hs & He & Hb)|[_ (s & e & Hs & He & Hb)]]].
           ++ exfalso. apply Hn2. split; eauto.
           ++ discriminate.
           ++ simplify_eq. exact Hb.
      * assert (Hn2 : ~ both_plain) by (intros [_ [? ?]]; discriminate).
        rewrite (Hnone Hn Hn2). simpl. split; auto.
      * assert (Hn2 : ~ both_plain) by (intros [[? ?] _]; discriminate).
        rewrite (Hnone Hn Hn2). simpl. split; auto.
Qed.

End TimelineFacts.

(** ** The assembler *)

Section AssemblerFacts.

Variable time_stretch : list float -> float -> list float.

Import PyFloat PySeq PyFloatFacts PySeqFacts.

Lemma write_slot_length total track start_sample slot_len aligned track' :
  write_slot total track start_sample slot_len aligned = Ok track' ->
  length track' = length track.
Proof. unfold write_slot. apply slice_assign_length. Qed.

Lemma process_slot_length a fs sr total st n i seg track log track' log' :
  process_slot time_stretch a fs sr total st n i seg (track, log) = Ok (track', log') ->
  length track' = length track.
Proof.
  unfold process_slot. intros H. inv_bind H. destruct x as [p evs].
  destruct p as [|start_sample slot_len aligned].
  - injection H as <- _. reflexivity.
  - inv_bind H. injection H as <- _. eapply write_slot_length; eauto.
Qed.

Lemma assemble_loop_length a fs sr total st n processed :
  forall i track log track' log',
  assemble_loop time_stretch a fs sr total st n i processed (track, log)
    = Ok (track', log') ->
  length track' = length track.
Proof.
  induction processed as [|seg rest IH]; intros i track log track' log' H; simpl in H.
  - injection H as <- _. reflexivity.
  - inv_bind H. destruct x as [track1 log1].
    apply process_slot_length in E. apply IH in H. congruence.
Qed.

(** The final truncation or padding forces the length, whatever the loop
    left behind. *)
Lemma finalize_length total track :
  0 <= total -> Z.of_nat (length (finalize total track)) = total.
Proof.
  intros H. unfold finalize.
  destruct (total <? Z.of_nat (length track)) eqn:E1.
  - rewrite slice_to_length by exact H. lia.
  - destruct (Z.of_nat (length track) <? total) eqn:E2.
    + rewrite np_pad_tail_length by lia. lia.
    + lia.
Qed.

Lemma finalize_id total track :
  Z.of_nat (length track) = total -> finalize total track = track.
Proof.
  intros H. unfold finalize. rewrite H, Z.ltb_irrefl. reflexivity.
Qed.

(** The shape of a completed assembly: the loop ran on the zero track and
    finalization had nothing to change. *)
Lemma assemble_Ok a fs sr total st processed track log :
  assemble time_stretch a fs sr total st processed = Ok (track, log) ->
  0 <= total /\
  assemble_loop time_stretch a fs sr total st (Z.of_nat (length processed)) 1 processed
    (replicate (Z.to_nat total) 0%float, []) = Ok (track, log).
Proof.
  unfold assemble. intros H. inv_bind H as t0 E0.
  apply np_zeros_Ok in E0. destruct E0 as [Ht ->].
  inv_bind H as [track1 log1] E1. injection H as <- <-.
  split; [exact Ht|]. rewrite E1. f_equal. f_equal.
  symmetry. apply finalize_id. apply assemble_loop_length in E1.
  rewrite E1, length_replicate. lia.
Qed.

(** The loop over a concatenation runs the two parts in turn, the counter
    going on where the first part stopped. *)
Lemma assemble_loop_app a fs sr total st n l1 l2 :
  forall i s,
  assemble_loop time_stretch a fs sr total st n i (l1 ++ l2) s =
    (let* s1 := assemble_loop time_stretch a fs sr total st n i l1 s in
     assemble_loop time_stretch a fs sr total st n (i + Z.of_nat (length l1)) l2 s1).
Proof.
  induction l1 as [|seg l1 IH]; intros i s; simpl.
  - rewrite Z.add_0_r. reflexivity.
  - destruct (process_slot time_stretch a fs sr total st n i seg s) as [s'|e]; simpl;
      [|reflexivity].
    rewrite IH. replace (i + 1 + Z.of_nat (length l1)) with (i + Z.pos (Pos.of_succ_nat (length l1))) by lia.
    reflexivity.
Qed.

(** An exception raised by one slot leaves the loop. *)
Lemma assemble_loop_raise a fs sr total st n pre seg post i s s1 e :
  assemble_loop time_stretch a fs sr total st n i pre s = Ok s1 ->
  process_slot time_stretch a fs sr total st n (i + Z.of_nat (length pre)) seg s1 = Raise e ->
  assemble_loop time_stretch a fs sr total st n i (pre ++ seg :: post) s = Raise e.
Proof.
  intros H1 H2. rewrite assemble_loop_app, H1. simpl. rewrite H2. reflexivity.
Qed.

(** A slot without a clip to place leaves the track as it is. *)
Lemma process_slot_NoClip a fs sr total st n i seg track log evs :
  resolve_slot fs sr i n (st !!! seg) = Ok (NoClip evs) ->
  process_slot time_stretch a fs sr total st n i seg (track, log) = Ok (track, log ++ evs).
Proof.
  intros H. unfold process_slot, plan_slot. rewrite H. reflexivity.
Qed.

(** The file system is read at one name only. *)
Lemma resolve_slot_fs_ext fs fs' sr i n seg path :
  seg_file_name (slot_index i seg) = Ok path ->
  fs' path = fs path ->
  resolve_slot fs' sr i n seg = resolve_slot fs sr i n seg.
Proof.
  intros Hp Hfs. unfold resolve_slot. rewrite Hp.
  destruct (slot_window sr seg) as [[[[[ss es] sd] sa] ea]|e]; simpl; [|reflexivity].
  destruct (ea <=? sa); [reflexivity|]. rewrite Hfs. reflexivity.
Qed.

(** C2, as the code has it. Once the slot's window is computed and its
    file name formatted, a slot whose clip file is missing is reported and
    skipped, and a slot whose clip decodes to no samples is skipped: both
    leave the track as it was and the loop goes on.  The loop has no
    handler: a clip that exists but cannot be decoded raises, and the
    exception leaves the loop. *)
Theorem missing_or_empty_skipped_corrupt_raises a fs sr total st n i seg track log
    start_sec end_sec slot_duration start_sample end_sample path :
  slot_window sr (st !!! seg)
    = Ok (start_sec, end_sec, slot_duration, start_sample, end_sample) ->
  start_sample < end_sample ->
  seg_file_name (slot_index i (st !!! seg)) = Ok path ->
  let idx := slot_index i (st !!! seg) in
  (fs path = Missing ->
   process_slot time_stretch a fs sr total st n i seg (track, log)
     = Ok (track, log ++ [WarnMissing idx path])) /\
  (fs path = Audio [] -> sr <> 0 ->
   process_slot time_stretch a fs sr total st n i seg (track, log)
     = Ok (track, log ++ [SegInfo i n idx start_sec end_sec slot_duration])) /\
  (fs path = Corrupt ->
   process_slot time_stretch a fs sr total st n i seg (track, log) = Raise DecodeError /\
   forall pre post i0 s0,
     i = i0 + Z.of_nat (length pre) ->
     assemble_loop time_stretch a fs sr total st n i0 pre s0 = Ok (track, log) ->
     assemble_loop time_stretch a fs sr total st n i0 (pre ++ seg :: post) s0
       = Raise DecodeError).
Proof.
  intros Hw Hlt Hp idx.
  assert (Hdeg : (end_sample <=? start_sample) = false) by lia.
  split; [|split].
  - intros Hfs. apply process_slot_NoClip.
    unfold resolve_slot. rewrite Hw. simpl. rewrite Hdeg, Hp. simpl. rewrite Hfs.
    reflexivity.
  - intros Hfs Hsr. apply process_slot_NoClip.
    unfold resolve_slot. rewrite Hw. simpl. rewrite Hdeg, Hp. simpl. rewrite Hfs.
    simpl. unfold int_truediv. destruct (sr =? 0) eqn:E; [lia|]. reflexivity.
  - intros Hfs.
    assert (Hraise : process_slot time_stretch a fs sr total st n i seg (track, log)
                     = Raise DecodeError).
    { unfold process_slot, plan_slot, resolve_slot. rewrite Hw. simpl.
      rewrite Hdeg, Hp. simpl. rewrite Hfs. reflexivity. }
    split; [exact Hraise|].
    intros pre post i0 s0 Hi Hloop. subst i.
    eapply assemble_loop_raise; eauto.
Qed.

(** When every slot is skipped the run returns the silent track. *)
Lemma assemble_all_skipped a fs sr total st processed :
  0 <= total ->
  (forall k seg,
     processed !! k = Some seg ->
     exists evs,
       resolve_slot fs sr (1 + Z.of_nat k) (Z.of_nat (length processed)) (st !!! seg)
         = Ok (NoClip evs)) ->
  exists log,
    assemble time_stretch a fs sr total st processed
      = Ok (replicate (Z.to_nat total) 0%float, log).
Proof.
  intros Ht Hall. unfold assemble, np_zeros.
  destruct (total <? 0) eqn:E; [lia|]. simpl.
  set (n := Z.of_nat (length processed)) in *. clearbody n.
  set (track := replicate (Z.to_nat total) 0%float).
  assert (Hlen : Z.of_nat (length track) = total).
  { subst track. rewrite length_replicate. lia. }
  assert (Hloop : forall l i log0,
             (forall k seg, l !! k = Some seg ->
                exists evs, resolve_slot fs sr (i + Z.of_nat k) n (st !!! seg)
                              = Ok (NoClip evs)) ->
             exists log,
               assemble_loop time_stretch a fs sr total st n i l (track, log0)
                 = Ok (track, log)).
  { induction l as [|seg l IH]; intros i log0 Hl; cbn [assemble_loop].
    - eauto.
    - destruct (Hl 0%nat seg eq_refl) as [evs Hevs].
      rewrite Z.add_0_r in Hevs.
      rewrite (process_slot_NoClip a _ _ total _ _ _ _ track log0 _ Hevs).
      cbn [bind].
      apply IH. intros k seg' Hk. destruct (Hl (S k) seg' Hk) as [evs' Hevs'].
      exists evs'. rewrite <- Hevs'. f_equal. lia. }
  destruct (Hloop processed 1 [] Hall) as [log Hlog].
  exists log. rewrite Hlog. simpl. rewrite finalize_id by exact Hlen. reflexivity.
Qed.

(** What an iteration that completes has done. *)
Lemma process_slot_Ok a fs sr total st n i seg track log track' log' :
  process_slot time_stretch a fs sr total st n i seg (track, log) = Ok (track', log') ->
  exists p evs,
    plan_slot time_stretch a fs sr i n (st !!! seg) = Ok (p, evs) /\
    log' = log ++ evs /\
    match p with
    | Skip => track' = track
    | Place start_sample slot_len aligned =>
      write_slot total track start_sample slot_len aligned = Ok track'
    end.
Proof.
  unfold process_slot. intros H. inv_bind H as [p evs] E. exists p, evs.
  split; [exact E|]. destruct p as [|start_sample slot_len aligned].
  - injection H as <- <-. auto.
  - inv_bind H as t E1. injection H as <- <-. auto.
Qed.

(** A placed buffer has exactly the slot's length. *)
Lemma plan_slot_Place a fs sr i n seg start_sample slot_len aligned evs :
  plan_slot time_stretch a fs sr i n seg = Ok (Place start_sample slot_len aligned, evs) ->
  0 < slot_len /\ Z.of_nat (length aligned) = slot_len.
Proof.
  unfold plan_slot. intros H. inv_bind H as r E.
  destruct r as [evs0|start0 len0 audio cd sd info]; [discriminate|].
  inv_bind H as [aligned0 evs0] E1. injection H as <- <- <- <-.
  destruct (resolve_slot_Clip _ _ _ _ _ _ _ _ _ _ _ E) as (Hlen & _).
  split; [exact Hlen|].
  unfold align_clip in E1. inv_bind E1 as need E2. destruct (negb need).
  - injection E1 as <- _. apply crop_pad_length. lia.
  - inv_bind E1 as rate E3. injection E1 as <- _. apply crop_pad_length. lia.
Qed.

(** A write leaves the positions it does not cover alone. *)
Lemma write_slot_outside total track start_sample slot_len aligned track' (pos : Z) :
  Z.of_nat (length track) = total ->
  write_slot total track start_sample slot_len aligned = Ok track' ->
  covers total (Place start_sample slot_len aligned) pos = false ->
  0 <= pos ->
  track' !! Z.to_nat pos = track !! Z.to_nat pos.
Proof.
  intros Hlen Hw Hc Hpos. unfold write_slot in Hw. unfold covers in Hc.
  destruct (region total start_sample (Z.min (start_sample + slot_len) total))
    as [r len] eqn:R.
  eapply slice_assign_outside; [exact Hw | rewrite Hlen; exact R |].
  rewrite Z2Nat.id by exact Hpos. lia.
Qed.

(** A write at a start that is not negative puts the aligned samples at
    the positions it covers. *)
Lemma write_slot_inside total track start_sample slot_len aligned track' (pos : Z) :
  Z.of_nat (length track) = total ->
  0 <= start_sample ->
  Z.of_nat (length aligned) = slot_len ->
  write_slot total track start_sample slot_len aligned = Ok track' ->
  covers total (Place start_sample slot_len aligned) pos = true ->
  start_sample <= pos < Z.min (start_sample + slot_len) total /\
  is_Some (aligned !! Z.to_nat (pos - start_sample)) /\
  track' !! Z.to_nat pos = aligned !! Z.to_nat (pos - start_sample).
Proof.
  intros Hlen Hs Hal Hw Hc. unfold write_slot in Hw. unfold covers in Hc.
  set (end_pos := Z.min (start_sample + slot_len) total) in *.
  destruct (region total start_sample end_pos) as [r len] eqn:R.
  assert (Ht : 0 <= total) by lia.
  pose proof R as R'. unfold region in R'. injection R' as Hr Hl.
  pose proof (clamp_index_range total end_pos Ht) as Hb.
  assert (Hrs : r = Z.min start_sample total).
  { rewrite <- Hr. unfold clamp_index. destruct (start_sample <? 0) eqn:E; lia. }
  assert (Hin : r <= pos < r + len) by lia.
  assert (Hend : 0 <= end_pos -> clamp_index total end_pos = end_pos).
  { intros H. apply clamp_index_inside. subst end_pos. lia. }
  assert (Hwin : start_sample <= pos < end_pos).
  { destruct (Z.le_gt_cases 0 end_pos) as [H|H].
    - rewrite (Hend H) in Hl. lia.
    - unfold clamp_index in Hl. destruct (end_pos <? 0) eqn:E; lia. }
  assert (Hr' : r = start_sample) by lia.
  assert (Hl' : len = end_pos - start_sample).
  { rewrite (Hend ltac:(lia)) in Hl. lia. }
  assert (Hcut : Z.of_nat (length (slice_to aligned (end_pos - start_sample))) = len).
  { rewrite slice_to_length by lia. subst end_pos. lia. }
  split; [exact Hwin|]. split.
  { apply lookup_lt_is_Some. subst end_pos. lia. }
  rewrite (slice_assign_inside _ _ _ _ _ r len (Z.to_nat pos) Hw); try lia.
  - rewrite slice_to_nonneg by lia. rewrite lookup_take_lt by lia. f_equal. lia.
  - rewrite Hlen. exact R.
Qed.

(** Later slots that do not cover a position leave it as it is. *)
Lemma assemble_loop_outside a fs sr total st n (pos : Z) post :
  forall i track log track' log',
  Z.of_nat (length track) = total ->
  0 <= pos ->
  assemble_loop time_stretch a fs sr total st n i post (track, log) = Ok (track', log') ->
  (forall (k : nat) sk pk evk,
     post !! k = Some sk ->
     plan_slot time_stretch a fs sr (i + Z.of_nat k) n (st !!! sk) = Ok (pk, evk) ->
     covers total pk pos = false) ->
  track' !! Z.to_nat pos = track !! Z.to_nat pos.
Proof.
  induction post as [|seg post IH]; intros i track log track' log' Hlen Hpos Hloop Hout;
    cbn [assemble_loop] in Hloop.
  - injection Hloop as <- _. reflexivity.
  - inv_bind Hloop as [track1 log1] E.
    pose proof (process_slot_length _ _ _ _ _ _ _ _ _ _ _ _ E) as Hlen1.
    apply process_slot_Ok in E. destruct E as (p & evs & Hplan & _ & Hp).
    assert (Hc : covers total p pos = false).
    { apply (Hout 0%nat seg p evs eq_refl). rewrite Z.add_0_r. exact Hplan. }
    assert (H1 : track1 !! Z.to_nat pos = track !! Z.to_nat pos).
    { destruct p as [|s l al]; [subst; reflexivity|].
      eapply write_slot_outside; eauto. }
    rewrite <- H1. eapply IH; [lia | exact Hpos | exact Hloop |].
    intros k sk pk evk Hk Hpk. apply (Hout (S k) sk pk evk Hk).
    rewrite <- Hpk. f_equal. lia.
Qed.

(** C6, as the code has it. When two slots are both placed and their
    windows intersect, the one that comes later in processing order
    overwrites the earlier one: at every position of the overlap that no
    still later slot covers, the assembled track holds the later slot's
    aligned sample (for a later slot that starts at a sample that is not
    negative), whatever the earlier slot wrote; nothing is mixed. *)
Theorem later_slot_overwrites a fs sr total st n i0 pre si mid sj post
    track0 log0 track log
    start_i len_i aligned_i evs_i start_j len_j aligned_j evs_j (pos : Z) :
  Z.of_nat (length track0) = total ->
  assemble_loop time_stretch a fs sr total st n i0 (pre ++ si :: mid ++ sj :: post)
    (track0, log0) = Ok (track, log) ->
  plan_slot time_stretch a fs sr (i0 + Z.of_nat (length pre)) n (st !!! si)
    = Ok (Place start_i len_i aligned_i, evs_i) ->
  plan_slot time_stretch a fs sr (i0 + Z.of_nat (length pre) + 1 + Z.of_nat (length mid)) n
      (st !!! sj)
    = Ok (Place start_j len_j aligned_j, evs_j) ->
  0 <= start_j ->
  covers total (Place start_i len_i aligned_i) pos = true ->
  covers total (Place start_j len_j aligned_j) pos = true ->
  (forall (k : nat) sk pk evk,
     post !! k = Some sk ->
     plan_slot time_stretch a fs sr
       (i0 + Z.of_nat (length pre) + 1 + Z.of_nat (length mid) + 1 + Z.of_nat k) n
       (st !!! sk) = Ok (pk, evk) ->
     covers total pk pos = false) ->
  start_j <= pos < Z.min (start_j + len_j) total /\
  is_Some (aligned_j !! Z.to_nat (pos - start_j)) /\
  track !! Z.to_nat pos = aligned_j !! Z.to_nat (pos - start_j).
Proof.
  intros Hlen Hloop Hpi Hpj Hsj Hci Hcj Hpost.
  replace (pre ++ si :: mid ++ sj :: post) with ((pre ++ si :: mid) ++ sj :: post) in Hloop
    by (rewrite <- app_assoc; reflexivity).
  rewrite assemble_loop_app in Hloop. inv_bind Hloop as [track1 log1] E1.
  cbn [assemble_loop] in Hloop. inv_bind Hloop as [track2 log2] E2.
  pose proof (assemble_loop_length _ _ _ _ _ _ _ _ _ _ _ _ E1) as Hlen1.
  pose proof (process_slot_length _ _ _ _ _ _ _ _ _ _ _ _ E2) as Hlen2.
  assert (Hidx : i0 + Z.of_nat (length (pre ++ si :: mid))
                 = i0 + Z.of_nat (length pre) + 1 + Z.of_nat (length mid)).
  { rewrite length_app. simpl. lia. }
  rewrite Hidx in *.
  apply process_slot_Ok in E2. destruct E2 as (p & evs & Hplan & _ & Hp).
  rewrite Hpj in Hplan. injection Hplan as <- <-.
  destruct (plan_slot_Place _ _ _ _ _ _ _ _ _ _ Hpj) as [_ Hal].
  destruct (write_slot_inside total track1 start_j len_j aligned_j track2 pos
              ltac:(lia) Hsj Hal Hp Hcj) as (Hwin & Hsome & Hval).
  split; [exact Hwin|]. split; [exact Hsome|].
  rewrite <- Hval.
  eapply assemble_loop_outside; [| | exact Hloop | exact Hpost]; lia.
Qed.

End AssemblerFacts.

(** ** The whole run *)

Section MainFacts.

Variable float_of_string : string -> option float.
Variable time_stretch : list float -> float -> list float.

Import PyFloat PySeq PyFloatFacts PySeqFacts.

(** C1. Every run that completes returns a track of exactly
    [total_samples] samples: the track is allocated zero-filled at that
    length, no slot write changes the length, and the final truncation or
    padding yields that length for any buffer. *)
Theorem track_length_is_total a fs sr total_samples st all_segments st' track log :
  main float_of_string time_stretch a fs sr total_samples st all_segments
    = Ok (st', track, log) ->
  np_zeros total_samples = Ok (replicate (Z.to_nat total_samples) 0%float) /\
  Z.of_nat (length (replicate (Z.to_nat total_samples) 0%float)) = total_samples /\
  (forall t, Z.of_nat (length (finalize total_samples t)) = total_samples) /\
  Z.of_nat (length track) = total_samples.
Proof.
  unfold main. intros H. inv_bind H as [st1 processed] E.
  inv_bind H as [track1 log1] E0. injection H as <- <- <-.
  apply assemble_Ok in E0. destruct E0 as [Ht Hloop].
  split. { unfold np_zeros. destruct (total_samples <? 0) eqn:E1; [lia|reflexivity]. }
  split. { rewrite length_replicate. lia. }
  split. { intros t. apply finalize_length. exact Ht. }
  apply assemble_loop_length in Hloop. rewrite Hloop, length_replicate. lia.
Qed.

End MainFacts.

(** ** Sorting by key *)

Section SortFacts.

Context {A : Type}.

Import PyFloat PyFloatFacts.

Implicit Types (x y : float * A) (l : list (float * A)).

(** Ascending order of the keys. *)
Let key_le x y : Prop := PrimFloat.leb (fst x) (fst y) = true.

Lemma insert_by_key_perm x l : Permutation (insert_by_key x l) (x :: l).
Proof.
  induction l as [|y l IH]; simpl.
  - reflexivity.
  - destruct (PrimFloat.ltb (fst y) (fst x)).
    + rewrite IH. apply perm_swap.
    + reflexivity.
Qed.

Lemma sort_by_key_perm l : Permutation (sort_by_key l) l.
Proof.
  induction l as [|x l IH]; simpl.
  - reflexivity.
  - rewrite insert_by_key_perm. constructor. exact IH.
Qed.

Lemma insert_by_key_sorted x l :
  is_nan (fst x) = false ->
  Forall (fun y => is_nan (fst y) = false) l ->
  StronglySorted key_le l ->
  StronglySorted key_le (insert_by_key x l).
Proof.
  intros Hx Hl Hs. induction Hs as [|y l Hs IH Hy]; simpl.
  - repeat constructor.
  - inversion Hl as [|? ? Hny Hl']; subst.
    destruct (PrimFloat.ltb (fst y) (fst x)) eqn:E.
    + constructor; [apply IH; exact Hl'|].
      rewrite insert_by_key_perm. constructor; [|exact Hy].
      apply ltb_leb. exact E.
    + assert (Hxy : key_le x y) by (apply leb_total; assumption).
      constructor; [constructor; assumption|].
      constructor; [exact Hxy|].
      eapply Forall_impl; [exact Hy|]. intros z Hz. eapply leb_trans; eassumption.
Qed.

Lemma sort_by_key_sorted l :
  Forall (fun y => is_nan (fst y) = false) l ->
  StronglySorted key_le (sort_by_key l).
Proof.
  induction 1 as [|x l Hx Hl IH]; simpl.
  - constructor.
  - apply insert_by_key_sorted; [exact Hx | | exact IH].
    rewrite sort_by_key_perm. exact Hl.
Qed.

(** A key below another one is not equal to what the other one equals. *)
Lemma ltb_eqb_excl (a b k : float) :
  PrimFloat.ltb a b = true -> PrimFloat.eqb a k = true -> PrimFloat.eqb b k = false.
Proof.
  rewrite FloatAxioms.ltb_spec, !FloatAxioms.eqb_spec. unfold SFltb, SFeqb.
  intros Hlt Ha.
  destruct (SFcompare (Prim2SF a) (Prim2SF k)) as [[ | | ]|] eqn:Eak; try discriminate.
  pose proof (SFcompare_eq_compat _ _ (Prim2SF b) Eak) as H1.
  rewrite (SFcompare_antisym (Prim2SF k) (Prim2SF b)).
  rewrite <- H1. destruct (SFcompare (Prim2SF a) (Prim2SF b)) as [[ | | ]|]; try discriminate.
  reflexivity.
Qed.

(** Stability: the elements of any one key come out in their input order. *)
Lemma insert_by_key_filter (k : float) x l :
  List.filter (fun y => PrimFloat.eqb (fst y) k) (insert_by_key x l)
    = List.filter (fun y => PrimFloat.eqb (fst y) k) (x :: l).
Proof.
  induction l as [|y l IH]; simpl.
  - reflexivity.
  - destruct (PrimFloat.ltb (fst y) (fst x)) eqn:E; [|reflexivity].
    simpl. rewrite IH. simpl.
    destruct (PrimFloat.eqb (fst y) k) eqn:Ey; [|reflexivity].
    rewrite (ltb_eqb_excl _ _ _ E Ey). reflexivity.
Qed.

Lemma sort_by_key_stable (k : float) l :
  List.filter (fun y => PrimFloat.eqb (fst y) k) (sort_by_key l)
    = List.filter (fun y => PrimFloat.eqb (fst y) k) l.
Proof.
  induction l as [|x l IH]; simpl.
  - reflexivity.
  - rewrite insert_by_key_filter. simpl. rewrite IH. reflexivity.
Qed.

End SortFacts.

(** ** Building the processed sequence *)

Section BuildFacts.

Variable float_of_string : string -> option float.

Import PyFloat PySeq PyFloatFacts PySeqFacts.

(** Decides that a literal key is none of the helper fields, or uses the
    hypothesis that a key is none of them. *)
Ltac not_helper :=
  match goal with
  | H : _ ∉ helper_fields |- _ <> _ =>
      let E := fresh in
      intros E; apply H; rewrite E; unfold helper_fields;
      repeat first [apply list_elem_of_here | apply list_elem_of_further]
  | |- _ ∉ helper_fields =>
      unfold helper_fields; rewrite !not_elem_of_cons;
      repeat split; first [discriminate | apply not_elem_of_nil]
  end.

Lemma set_item_other st seg k v (l : loc) :
  l <> seg -> set_item st seg k v !! l = st !! l.
Proof. intros H. unfold set_item. apply lookup_insert_ne. congruence. Qed.

Lemma set_item_total_other st seg k v (l : loc) :
  l <> seg -> set_item st seg k v !!! l = st !!! l.
Proof. intros H. unfold set_item. apply lookup_total_insert_ne. congruence. Qed.

Lemma set_item_same st seg k v :
  (set_item st seg k v !!! seg) !! k = Some v.
Proof. unfold set_item. rewrite lookup_total_insert_eq. apply lookup_insert_eq. Qed.

Lemma set_item_other_key st seg k v (l : loc) (k' : string) :
  k' <> k -> (set_item st seg k v !!! l) !! k' = (st !!! l) !! k'.
Proof.
  intros H. unfold set_item. destruct (decide (l = seg)) as [->|Hl].
  - rewrite lookup_total_insert_eq. apply lookup_insert_ne. congruence.
  - rewrite lookup_total_insert_ne by congruence. reflexivity.
Qed.

(** The times are read from keys the code never writes. *)
Lemma get_slot_times_frame (r r' : record) :
  (forall k, k ∉ helper_fields -> r' !! k = r !! k) ->
  get_slot_times float_of_string r' = get_slot_times float_of_string r.
Proof.
  intros H. unfold get_slot_times.
  rewrite !H by not_helper. reflexivity.
Qed.

(** What [add_time_fields] does to the store. *)
Lemma add_time_fields_Ok st seg st' :
  add_time_fields float_of_string st seg = Ok st' ->
  (forall (l : loc) k, k ∉ helper_fields -> (st' !!! l) !! k = (st !!! l) !! k) /\
  (forall l : loc, l <> seg -> st' !! l = st !! l) /\
  exists s e,
    get_slot_times float_of_string (st !!! seg) = Ok (s, e) /\
    (st' !!! seg) !! "_start_sec"%string = Some (JFloat s) /\
    (st' !!! seg) !! "_end_sec"%string = Some (JFloat e) /\
    (st' !!! seg) !! "_duration_sec"%string
      = Some (JFloat (py_max 0%float (e - s)%float)).
Proof.
  unfold add_time_fields. intros H. inv_bind H as [s e] E. injection H as <-.
  split; [|split].
  - intros l k Hk. rewrite !set_item_other_key by not_helper. reflexivity.
  - intros l Hl. rewrite !set_item_other by exact Hl. reflexivity.
  - exists s, e. split; [exact E|]. split; [|split].
    + rewrite !set_item_other_key by discriminate. apply set_item_same.
    + rewrite set_item_other_key by discriminate. apply set_item_same.
    + apply set_item_same.
Qed.

Lemma lookup_total_eq (st st' : store) (l : loc) :
  st' !! l = st !! l -> st' !!! l = st !!! l.
Proof. intros H. rewrite !lookup_total_alt, H. reflexivity. Qed.

Lemma add_all_time_fields_Ok segs :
  forall st st',
  add_all_time_fields float_of_string st segs = Ok st' ->
  (forall (l : loc) k, k ∉ helper_fields -> (st' !!! l) !! k = (st !!! l) !! k) /\
  (forall l : loc, l ∉ segs -> st' !! l = st !! l) /\
  (forall l : loc, l ∈ segs -> fields_set float_of_string st st' l).
Proof.
  induction segs as [|seg rest IH]; intros st st' H; simpl in H.
  - injection H as <-. split; [auto|]. split; [auto|]. intros l Hl.
    apply elem_of_nil in Hl. destruct Hl.
  - inv_bind H as st1 E1.
    destruct (add_time_fields_Ok _ _ _ E1) as (Hf1 & Ho1 & s & e & Ht & Hs & He & Hd).
    destruct (IH _ _ H) as (Hf2 & Ho2 & Hin2).
    split; [|split].
    + intros l k Hk. rewrite Hf2, Hf1 by exact Hk. reflexivity.
    + intros l Hl. apply not_elem_of_cons in Hl. destruct Hl as [Hne Hnr].
      rewrite (Ho2 l Hnr), (Ho1 l Hne). reflexivity.
    + intros l Hl. destruct (decide (l ∈ rest)) as [Hr|Hr].
      * destruct (Hin2 l Hr) as (s' & e' & Ht' & Hrest). exists s', e'.
        split; [|exact Hrest]. rewrite <- Ht'. symmetry.
        apply get_slot_times_frame. intros k Hk. apply Hf1. exact Hk.
      * apply elem_of_cons in Hl. destruct Hl as [->|Hl]; [|contradiction].
        exists s, e. rewrite (lookup_total_eq _ _ _ (Ho2 seg Hr)). auto.
Qed.

Lemma map_result_keys (st : store) segs keyed :
  map_result (fun seg => let* k := get_float (st !!! seg) "_start_sec" in Ok (k, seg)) segs
    = Ok keyed ->
  keyed = map (fun seg => (start_key st seg, seg)) segs.
Proof.
  revert keyed. induction segs as [|seg rest IH]; intros keyed H; simpl in H.
  - injection H as <-. reflexivity.
  - inv_bind H as [k seg'] E1. inv_bind H as ys E2. injection H as <-.
    inv_bind E1 as f E3. injection E1 as <- <-.
    simpl. rewrite (IH ys E2). unfold start_key. rewrite E3. reflexivity.
Qed.

(** The sort, on the list of references. *)
Lemma sort_processed_Ok (st : store) segs processed :
  sort_processed st segs = Ok processed ->
  processed = map snd (sort_by_key (map (fun seg => (start_key st seg, seg)) segs)).
Proof.
  unfold sort_processed. intros H. inv_bind H as keyed E. injection H as <-.
  rewrite (map_result_keys _ _ _ E). reflexivity.
Qed.

Lemma sorted_keys_perm (st : store) segs :
  Permutation (map snd (sort_by_key (map (fun seg => (start_key st seg, seg)) segs))) segs.
Proof.
  rewrite sort_by_key_perm. rewrite map_map. simpl. rewrite map_id. reflexivity.
Qed.

Lemma keyed_filter (st : store) (k : float) (s : list (float * loc)) :
  Forall (fun x => fst x = start_key st (snd x)) s ->
  List.filter (fun l => PrimFloat.eqb (start_key st l) k) (map snd s)
    = map snd (List.filter (fun x => PrimFloat.eqb (fst x) k) s).
Proof.
  induction 1 as [|x s Hx Hs IH]; simpl; [reflexivity|].
  rewrite <- Hx. destruct (PrimFloat.eqb (fst x) k); simpl; rewrite IH; reflexivity.
Qed.

Lemma keyed_Forall (st : store) segs :
  Forall (fun x => fst x = start_key st (snd x))
    (map (fun seg => (start_key st seg, seg)) segs).
Proof.
  apply List.Forall_forall. intros x Hx. apply in_map_iff in Hx.
  destruct Hx as (l & <- & _). reflexivity.
Qed.

Lemma sorted_keys_stable (st : store) (k : float) segs :
  List.filter (fun l => PrimFloat.eqb (start_key st l) k)
    (map snd (sort_by_key (map (fun seg => (start_key st seg, seg)) segs)))
  = List.filter (fun l => PrimFloat.eqb (start_key st l) k) segs.
Proof.
  set (keyed := map (fun seg => (start_key st seg, seg)) segs).
  rewrite keyed_filter.
  - rewrite sort_by_key_stable.
    rewrite <- (keyed_filter st k keyed (keyed_Forall st segs)).
    subst keyed. rewrite map_map. simpl. rewrite map_id. reflexivity.
  - eapply Permutation_Forall; [symmetry; apply sort_by_key_perm | apply keyed_Forall].
Qed.

Lemma sorted_keys_ascending (st : store) segs :
  Forall (fun l => is_nan (start_key st l) = false) segs ->
  StronglySorted (fun l1 l2 => PrimFloat.leb (start_key st l1) (start_key st l2) = true)
    (map snd (sort_by_key (map (fun seg => (start_key st seg, seg)) segs))).
Proof.
  intros Hn.
  set (keyed := map (fun seg => (start_key st seg, seg)) segs).
  assert (Hk : Forall (fun x => fst x = start_key st (snd x)) (sort_by_key keyed)).
  { eapply Permutation_Forall; [symmetry; apply sort_by_key_perm | apply keyed_Forall]. }
  assert (Hs : StronglySorted (fun x y => PrimFloat.leb (fst x) (fst y) = true)
                 (sort_by_key keyed)).
  { apply sort_by_key_sorted. subst keyed. apply List.Forall_forall. intros x Hx.
    apply in_map_iff in Hx. destruct Hx as (l & <- & Hl). simpl.
    rewrite List.Forall_forall in Hn. apply Hn. exact Hl. }
  induction Hs as [|x s Hs IH Hx]; simpl; [constructor|].
  inversion Hk as [|? ? Hkx Hk']; subst.
  constructor; [apply IH; exact Hk'|].
  apply List.Forall_forall. intros l Hl. apply in_map_iff in Hl.
  destruct Hl as (y & <- & Hy).
  rewrite List.Forall_forall in Hx, Hk'. rewrite <- Hkx, <- (Hk' y Hy). apply Hx. exact Hy.
Qed.

(** What a successful [build_processed] has done. *)
Lemma build_processed_Ok a st all_segments st' processed :
  build_processed float_of_string a st all_segments = Ok (st', processed) ->
  add_all_time_fields float_of_string st (truncate a all_segments) = Ok st' /\
  processed = map snd (sort_by_key
                (map (fun seg => (start_key st' seg, seg)) (truncate a all_segments))).
Proof.
  unfold build_processed. intros H. inv_bind H as st1 E1. inv_bind H as p E2.
  injection H as <- <-. split; [exact E1|]. apply sort_processed_Ok. exact E2.
Qed.

(** C8, as the code has it. The sort works on a new list, so the order of
    the input list is not touched, but the records are the caller's own
    dictionaries and the code writes into them: every kept record gains the
    fields [_start_sec], [_end_sec] and [_duration_sec].  No other field of
    any record changes and no record outside the kept ones is touched.  The
    processed sequence is a permutation of the kept references; when no
    start is a NaN it is ascending by start and equal starts keep their
    input order. *)
Theorem build_writes_helper_fields_and_sorts_stably a st all_segments st' processed :
  build_processed float_of_string a st all_segments = Ok (st', processed) ->
  let kept := truncate a all_segments in
  (forall l : loc, l ∈ kept -> fields_set float_of_string st st' l) /\
  (forall (l : loc) k, k ∉ helper_fields -> (st' !!! l) !! k = (st !!! l) !! k) /\
  (forall l : loc, l ∉ kept -> st' !! l = st !! l) /\
  Permutation processed kept /\
  (Forall (fun l => is_nan (start_key st' l) = false) kept ->
   StronglySorted
     (fun l1 l2 => PrimFloat.leb (start_key st' l1) (start_key st' l2) = true)
     processed /\
   forall k : float,
     List.filter (fun l => PrimFloat.eqb (start_key st' l) k) processed
       = List.filter (fun l => PrimFloat.eqb (start_key st' l) k) kept).
Proof.
  intros H kept. apply build_processed_Ok in H. destruct H as [Hadd ->].
  destruct (add_all_time_fields_Ok _ _ _ Hadd) as (Hframe & Hout & Hin).
  split; [exact Hin|]. split; [exact Hframe|]. split; [exact Hout|].
  split; [apply sorted_keys_perm|].
  intros Hnan. split; [apply sorted_keys_ascending; exact Hnan|].
  intros k. apply sorted_keys_stable.
Qed.

(** C7, as the code has it. The truncation to [max_segments] is a prefix
    of the input list in input order, taken before the helper fields are
    added and before the sort: the processed sequence is a permutation of
    the first [n] input records (of all but the last [-n] for a negative
    [n]), the run is the run without the option on that prefix, and the
    records after the prefix are never touched. *)
Theorem truncation_is_input_prefix_before_sort a st all_segments st' processed n :
  max_segments a = Some n ->
  build_processed float_of_string a st all_segments = Ok (st', processed) ->
  let kept := slice_to all_segments n in
  let a' := {| max_segments := None;
               max_rel_stretch := max_rel_stretch a;
               max_abs_stretch := max_abs_stretch a |} in
  (0 <= n -> kept = take (Z.to_nat n) all_segments) /\
  (n < 0 -> kept = take (length all_segments - Z.to_nat (- n)) all_segments) /\
  Permutation processed kept /\
  build_processed float_of_string a st all_segments
    = build_processed float_of_string a' st kept /\
  (forall l : loc, l ∉ kept -> st' !! l = st !! l).
Proof.
  intros Hn H kept a'.
  assert (Hk : truncate a all_segments = kept).
  { unfold truncate. rewrite Hn. reflexivity. }
  split; [intros Hpos; apply slice_to_nonneg; exact Hpos|].
  split.
  { intros Hneg. subst kept. unfold slice_to, clamp_index.
    destruct (n <? 0) eqn:E; [|lia]. f_equal. lia. }
  split.
  { apply build_processed_Ok in H. destruct H as [_ ->]. rewrite Hk.
    apply sorted_keys_perm. }
  split.
  { unfold build_processed. rewrite Hk. reflexivity. }
  apply build_processed_Ok in H. destruct H as [Hadd _]. rewrite Hk in Hadd.
  destruct (add_all_time_fields_Ok _ _ _ Hadd) as (_ & Hout & _). exact Hout.
Qed.

End BuildFacts.

(** ** The claims on sample runs *)

Section Runs.

Import Demo.

(** The four kinds of slot sets: none, one slot over the whole track, slots
    with a gap, two overlapping slots. *)
Example run_no_slots :
  main no_parse flip_stretch demo_args two_clips 4 12 three_slots []
    = Ok (three_slots, replicate 12 0%float, []).
Proof. vm_compute. reflexivity. Qed.

Example run_whole_track :
  track_of (main no_parse flip_stretch demo_args whole_clip 4 12
              {[0%nat := json_rec 0 3]} [0%nat])
    = Some (replicate 12 1%float).
Proof. vm_compute. reflexivity. Qed.

Example run_with_gap :
  track_of (main no_parse flip_stretch demo_args first_clip 4 12 three_slots
              [0%nat; 2%nat])
    = Some (replicate 4 1%float ++ replicate 8 0%float).
Proof. vm_compute. reflexivity. Qed.

Example run_overlapping :
  track_of (main no_parse flip_stretch demo_args overlap_clips 4 12 overlapping
              [0%nat; 1%nat])
    = Some (replicate 4 1%float ++ replicate 8 2%float).
Proof. vm_compute. reflexivity. Qed.

(** A slot that starts two samples after the end of the track: the slice
    of the track is empty, the buffer cut for it is not, and the
    assignment raises. *)
Example run_slot_past_end_raises :
  main no_parse flip_stretch demo_args whole_clip 4 12 {[0%nat := json_rec 3.5 5]} [0%nat]
    = Raise ValueError.
Proof. vm_compute. reflexivity. Qed.

Lemma track_length_is_total_witness :
  main no_parse flip_stretch demo_args two_clips 4 12 three_slots [0%nat; 1%nat; 2%nat]
    = Ok (built demo_args three_slots [0%nat; 1%nat; 2%nat],
          [1; 1; 1; 1; -2; -2; -2; -2; 0; 0; 0; 0]%float,
          [SegInfo 1 3 (JInt 1) 0 1 1; SegInfo 2 3 (JInt 2) 1 2.5 1.5;
           StretchRate 0.7; WarnMissing (JInt 3) "seg_0003.mp3"]) /\
  Z.of_nat (length [1; 1; 1; 1; -2; -2; -2; -2; 0; 0; 0; 0]%float) = 12.
Proof.
  assert (H : main no_parse flip_stretch demo_args two_clips 4 12 three_slots
                [0%nat; 1%nat; 2%nat]
              = Ok (built demo_args three_slots [0%nat; 1%nat; 2%nat],
                    [1; 1; 1; 1; -2; -2; -2; -2; 0; 0; 0; 0]%float,
                    [SegInfo 1 3 (JInt 1) 0 1 1; SegInfo 2 3 (JInt 2) 1 2.5 1.5;
                     StretchRate 0.7; WarnMissing (JInt 3) "seg_0003.mp3"]))
    by (vm_compute; reflexivity).
  split; [exact H|].
  exact (proj2 (proj2 (proj2 (track_length_is_total _ _ _ _ _ _ _ _ _ _ _ H)))).
Defined.

(** C2 as stated fails: the slot list loads and sorts, and the one slot's
    clip file exists but does not decode; the run raises. *)
Lemma corrupt_clip_aborts_run :
  is_ok (build_processed no_parse demo_args one_slot [0%nat]) = true /\
  main no_parse flip_stretch demo_args corrupt_clip 4 12 one_slot [0%nat]
    = Raise DecodeError.
Proof. vm_compute. auto. Qed.

Lemma missing_or_empty_skipped_corrupt_raises_witness :
  slot_window 4 (built demo_args one_slot [0%nat] !!! 0%nat) = Ok (0%float, 1%float, 1%float, 0, 4) /\
  seg_file_name (slot_index 1 (built demo_args one_slot [0%nat] !!! 0%nat))
    = Ok "seg_0001.mp3"%string /\
  process_slot flip_stretch demo_args (fun _ => Missing) 4 12
      (built demo_args one_slot [0%nat]) 1 1 0%nat (replicate 12 0%float, [])
    = Ok (replicate 12 0%float, [WarnMissing (JInt 1) "seg_0001.mp3"]) /\
  process_slot flip_stretch demo_args empty_clip 4 12
      (built demo_args one_slot [0%nat]) 1 1 0%nat (replicate 12 0%float, [])
    = Ok (replicate 12 0%float, [SegInfo 1 1 (JInt 1) 0 1 1]) /\
  process_slot flip_stretch demo_args corrupt_clip 4 12
      (built demo_args one_slot [0%nat]) 1 1 0%nat (replicate 12 0%float, [])
    = Raise DecodeError.
Proof.
  assert (Hw : slot_window 4 (built demo_args one_slot [0%nat] !!! 0%nat)
               = Ok (0%float, 1%float, 1%float, 0, 4)) by (vm_compute; reflexivity).
  assert (Hp : seg_file_name (slot_index 1 (built demo_args one_slot [0%nat] !!! 0%nat))
               = Ok "seg_0001.mp3"%string) by (vm_compute; reflexivity).
  split; [exact Hw|]. split; [exact Hp|].
  split; [|split].
  - exact (proj1 (missing_or_empty_skipped_corrupt_raises flip_stretch demo_args
             (fun _ => Missing) 4 12 _ 1 1 0%nat (replicate 12 0%float) []
             _ _ _ _ _ _ Hw ltac:(lia) Hp) eq_refl).
  - exact (proj1 (proj2 (missing_or_empty_skipped_corrupt_raises flip_stretch demo_args
             empty_clip 4 12 _ 1 1 0%nat (replicate 12 0%float) []
             _ _ _ _ _ _ Hw ltac:(lia) Hp)) eq_refl ltac:(lia)).
  - exact (proj1 (proj2 (proj2 (missing_or_empty_skipped_corrupt_raises flip_stretch
             demo_args corrupt_clip 4 12 _ 1 1 0%nat (replicate 12 0%float) []
             _ _ _ _ _ _ Hw ltac:(lia) Hp)) eq_refl)).
Defined.

(** A clip a quarter of a second short of its one-second slot: the relative
    difference (0.25) is above its threshold, the absolute one (0.25 s) is
    not, and the clip is padded, not stretched.  A clip one second long in
    a slot of a second and a half passes both thresholds and is stretched. *)
Lemma stretch_iff_both_thresholds_witness :
  resolve_slot short_clip 4 1 1 (built demo_args one_slot [0%nat] !!! 0%nat)
    = Ok (Clip 0 4 [0.5; 0.25; 0.125]%float 0.75 1 (SegInfo 1 1 (JInt 1) 0 1 1)) /\
  plan_slot flip_stretch demo_args short_clip 4 1 1
      (built demo_args one_slot [0%nat] !!! 0%nat)
    = Ok (Place 0 4 [0.5; 0.25; 0.125; 0]%float, [SegInfo 1 1 (JInt 1) 0 1 1]) /\
  resolve_slot two_clips 4 2 3 (built demo_args three_slots [0%nat; 1%nat; 2%nat] !!! 1%nat)
    = Ok (Clip 4 6 [2; 2; 2; 2]%float 1 1.5 (SegInfo 2 3 (JInt 2) 1 2.5 1.5)) /\
  plan_slot flip_stretch demo_args two_clips 4 2 3
      (built demo_args three_slots [0%nat; 1%nat; 2%nat] !!! 1%nat)
    = Ok (Place 4 6 (crop_pad (flip_stretch [2; 2; 2; 2]%float 0.7) 6),
          [SegInfo 2 3 (JInt 2) 1 2.5 1.5; StretchRate 0.7]).
Proof.
  assert (H1 : resolve_slot short_clip 4 1 1 (built demo_args one_slot [0%nat] !!! 0%nat)
               = Ok (Clip 0 4 [0.5; 0.25; 0.125]%float 0.75 1
                       (SegInfo 1 1 (JInt 1) 0 1 1)))
    by (vm_compute; reflexivity).
  assert (H2 : resolve_slot two_clips 4 2 3
                 (built demo_args three_slots [0%nat; 1%nat; 2%nat] !!! 1%nat)
               = Ok (Clip 4 6 [2; 2; 2; 2]%float 1 1.5
                       (SegInfo 2 3 (JInt 2) 1 2.5 1.5)))
    by (vm_compute; reflexivity).
  split; [exact H1|]. split.
  { exact (proj2 (proj2 (stretch_iff_both_thresholds flip_stretch demo_args
             _ _ _ _ _ _ _ _ _ _ _ H1 eq_refl))). }
  split; [exact H2|].
  exact (proj2 (proj2 (stretch_iff_both_thresholds flip_stretch demo_args
           _ _ _ _ _ _ _ _ _ _ _ H2 eq_refl))).
Defined.

(** A clip five seconds long in a one-second slot: the raw ratio 5.0 is
    clamped to the upper bound. *)
Lemma stretch_rate_clamped_witness :
  need_stretch demo_args 1 5 = Ok true /\
  exists rate,
    plan_slot flip_stretch demo_args long_clip 4 1 1
        (built demo_args one_slot [0%nat] !!! 0%nat)
      = Ok (Place 0 4 (crop_pad (flip_stretch (replicate 20 1%float) rate) 4),
            [SegInfo 1 1 (JInt 1) 0 1 1; StretchRate rate]) /\
    rate = 1.3%float.
Proof.
  assert (H1 : resolve_slot long_clip 4 1 1 (built demo_args one_slot [0%nat] !!! 0%nat)
               = Ok (Clip 0 4 (replicate 20 1%float) 5 1 (SegInfo 1 1 (JInt 1) 0 1 1)))
    by (vm_compute; reflexivity).
  assert (H2 : need_stretch demo_args 1 5 = Ok true) by (vm_compute; reflexivity).
  split; [exact H2|].
  destruct (stretch_rate_clamped flip_stretch demo_args _ _ _ _ _ _ _ _ _ _ _ H1 H2 eq_refl)
    as (rate & Hplan & _ & _ & _ & Habove & _).
  exists rate. split; [exact Hplan|]. apply Habove. reflexivity.
Defined.

(** The short clip again: three samples kept as they are, one zero added. *)
Lemma no_stretch_crop_or_pad_witness :
  need_stretch demo_args 1 0.75 = Ok false /\
  exists aligned,
    plan_slot flip_stretch demo_args short_clip 4 1 1
        (built demo_args one_slot [0%nat] !!! 0%nat)
      = Ok (Place 0 4 aligned, [SegInfo 1 1 (JInt 1) 0 1 1]) /\
    aligned = [0.5; 0.25; 0.125]%float ++ [0%float].
Proof.
  assert (H1 : resolve_slot short_clip 4 1 1 (built demo_args one_slot [0%nat] !!! 0%nat)
               = Ok (Clip 0 4 [0.5; 0.25; 0.125]%float 0.75 1
                       (SegInfo 1 1 (JInt 1) 0 1 1)))
    by (vm_compute; reflexivity).
  assert (H2 : need_stretch demo_args 1 0.75 = Ok false) by (vm_compute; reflexivity).
  split; [exact H2|].
  destruct (no_stretch_crop_or_pad flip_stretch demo_args _ _ _ _ _ _ _ _ _ _ _ H1 H2)
    as (aligned & Hplan & _ & _ & Hpad & _).
  exists aligned. split; [exact Hplan|]. apply Hpad. simpl. lia.
Defined.

(** The slots [(0,2)] and [(1,3)] overlap on the samples 4 to 7; sample 5
    of the track is sample 1 of the later slot's buffer. *)
Lemma later_slot_overwrites_witness :
  assemble_loop flip_stretch demo_args overlap_clips 4 12
      (built demo_args overlapping [0%nat; 1%nat]) 2 1 [0%nat; 1%nat]
      (replicate 12 0%float, [])
    = Ok (replicate 4 1%float ++ replicate 8 2%float,
          [SegInfo 1 2 (JInt 1) 0 2 2; SegInfo 2 2 (JInt 2) 1 3 2]) /\
  covers 12 (Place 0 8 (replicate 8 1%float)) 5 = true /\
  covers 12 (Place 4 8 (replicate 8 2%float)) 5 = true /\
  (replicate 4 1%float ++ replicate 8 2%float) !! 5%nat
    = replicate 8 2%float !! 1%nat.
Proof.
  assert (Hloop : assemble_loop flip_stretch demo_args overlap_clips 4 12
                    (built demo_args overlapping [0%nat; 1%nat]) 2 1
                    ([] ++ 0%nat :: [] ++ 1%nat :: [])
                    (replicate 12 0%float, [])
                  = Ok (replicate 4 1%float ++ replicate 8 2%float,
                        [SegInfo 1 2 (JInt 1) 0 2 2; SegInfo 2 2 (JInt 2) 1 3 2]))
    by (vm_compute; reflexivity).
  assert (Hi : plan_slot flip_stretch demo_args overlap_clips 4
                 (1 + Z.of_nat (length (@nil loc))) 2
                 (built demo_args overlapping [0%nat; 1%nat] !!! 0%nat)
               = Ok (Place 0 8 (replicate 8 1%float), [SegInfo 1 2 (JInt 1) 0 2 2]))
    by (vm_compute; reflexivity).
  assert (Hj : plan_slot flip_stretch demo_args overlap_clips 4
                 (1 + Z.of_nat (length (@nil loc)) + 1 + Z.of_nat (length (@nil loc))) 2
                 (built demo_args overlapping [0%nat; 1%nat] !!! 1%nat)
               = Ok (Place 4 8 (replicate 8 2%float), [SegInfo 2 2 (JInt 2) 1 3 2]))
    by (vm_compute; reflexivity).
  split; [exact Hloop|]. split; [reflexivity|]. split; [reflexivity|].
  refine (proj2 (proj2 (later_slot_overwrites flip_stretch demo_args overlap_clips 4 12
            _ 2 1 [] 0%nat [] 1%nat [] (replicate 12 0%float) [] _ _
            0 8 _ _ 4 8 _ _ 5 _ Hloop Hi Hj _ _ _ _))).
  - reflexivity.
  - lia.
  - reflexivity.
  - reflexivity.
  - intros k sk pk evk Hk. destruct k; discriminate.
Defined.

(** C6 as stated fails: the windows of the slots [(0,2)] and [(1,3)]
    intersect on the samples 4 to 7, the later slot has no clip file and
    so places nothing, and the overlap keeps the earlier slot's samples. *)
Lemma missing_later_clip_keeps_earlier_samples :
  slot_window 4 (built demo_args overlapping [0%nat; 1%nat] !!! 0%nat)
    = Ok (0%float, 2%float, 2%float, 0, 8) /\
  slot_window 4 (built demo_args overlapping [0%nat; 1%nat] !!! 1%nat)
    = Ok (1%float, 3%float, 2%float, 4, 12) /\
  plan_slot flip_stretch demo_args overlap_first_only 4 2 2
      (built demo_args overlapping [0%nat; 1%nat] !!! 1%nat)
    = Ok (Skip, [WarnMissing (JInt 2) "seg_0002.mp3"]) /\
  track_of (main no_parse flip_stretch demo_args overlap_first_only 4 12 overlapping
              [0%nat; 1%nat])
    = Some (replicate 8 1%float ++ replicate 4 0%float).
Proof. vm_compute. auto. Qed.

(** C7 as stated fails: of the records (5,6) and (0,1), given in that
    order, the option [max_segments = 1] keeps the first one of the file,
    which starts at 5; the earliest-starting record, first in the sorted
    sequence of the full input, is the other one. *)
Lemma truncation_keeps_first_input_record :
  build_processed no_parse first_only late_first [0%nat; 1%nat]
    = Ok (built first_only late_first [0%nat; 1%nat], [0%nat]) /\
  build_processed no_parse demo_args late_first [0%nat; 1%nat]
    = Ok (built demo_args late_first [0%nat; 1%nat], [1%nat; 0%nat]) /\
  start_key (built demo_args late_first [0%nat; 1%nat]) 0%nat = 5%float /\
  start_key (built demo_args late_first [0%nat; 1%nat]) 1%nat = 0%float.
Proof. vm_compute. auto. Qed.

Lemma truncation_is_input_prefix_before_sort_witness :
  build_processed no_parse first_only late_first [0%nat; 1%nat]
    = Ok (built first_only late_first [0%nat; 1%nat], [0%nat]) /\
  Permutation [0%nat] (PySeq.slice_to [0%nat; 1%nat] 1) /\
  built first_only late_first [0%nat; 1%nat] !! 1%nat = late_first !! 1%nat.
Proof.
  assert (H : build_processed no_parse first_only late_first [0%nat; 1%nat]
              = Ok (built first_only late_first [0%nat; 1%nat], [0%nat]))
    by (vm_compute; reflexivity).
  split; [exact H|].
  destruct (truncation_is_input_prefix_before_sort no_parse first_only late_first
              [0%nat; 1%nat] _ _ 1 eq_refl H) as (_ & _ & Hperm & _ & Hout).
  split; [exact Hperm|]. apply Hout.
  simpl. intros Hin. apply list_elem_of_singleton in Hin. discriminate.
Defined.

(** C8 as stated fails: the first record has no [_start_sec] field before
    the build and has one after it. *)
Lemma build_adds_fields_to_input_record :
  build_processed no_parse demo_args three_slots [0%nat; 1%nat; 2%nat]
    = Ok (built demo_args three_slots [0%nat; 1%nat; 2%nat], [0%nat; 1%nat; 2%nat]) /\
  (three_slots !!! 0%nat) !! "_start_sec"%string = None /\
  (built demo_args three_slots [0%nat; 1%nat; 2%nat] !!! 0%nat) !! "_start_sec"%string
    = Some (JFloat 0).
Proof. vm_compute. auto. Qed.

Lemma build_writes_helper_fields_and_sorts_stably_witness :
  build_processed no_parse demo_args late_first [0%nat; 1%nat]
    = Ok (built demo_args late_first [0%nat; 1%nat], [1%nat; 0%nat]) /\
  fields_set no_parse late_first (built demo_args late_first [0%nat; 1%nat]) 0%nat /\
  (built demo_args late_first [0%nat; 1%nat] !!! 0%nat) !! "start_sec"%string
    = (late_first !!! 0%nat) !! "start_sec"%string /\
  Permutation [1%nat; 0%nat] [0%nat; 1%nat] /\
  StronglySorted
    (fun l1 l2 =>
       PrimFloat.leb (start_key (built demo_args late_first [0%nat; 1%nat]) l1)
                     (start_key (built demo_args late_first [0%nat; 1%nat]) l2) = true)
    [1%nat; 0%nat].
Proof.
  assert (H : build_processed no_parse demo_args late_first [0%nat; 1%nat]
              = Ok (built demo_args late_first [0%nat; 1%nat], [1%nat; 0%nat]))
    by (vm_compute; reflexivity).
  split; [exact H|].
  destruct (build_writes_helper_fields_and_sorts_stably no_parse demo_args late_first
              [0%nat; 1%nat] _ _ H) as (Hin & Hframe & _ & Hperm & Hsort).
  split; [apply Hin; apply list_elem_of_here|].
  split; [|split; [exact Hperm|]].
  - apply Hframe. unfold helper_fields. rewrite !not_elem_of_cons.
    repeat split; first [discriminate | apply not_elem_of_nil].
  - apply Hsort. repeat constructor; vm_compute; reflexivity.
Defined.

(** A record with both key pairs is read from [start_sec] and [end_sec];
    a string value is rejected by the parser of this run; a record with
    one key of each pair has no pair at all. *)
Example get_slot_times_examples :
  get_slot_times no_parse
    (<["start"%string := JInt 7]> (<["end"%string := JInt 9]> (json_rec 1 2.5)))
    = Ok (1, 2.5)%float /\
  get_slot_times no_parse (<["start"%string := JInt 7]> {["end"%string := JBool true]})
    = Ok (7, 1)%float /\
  get_slot_times no_parse (<["start_sec"%string := JStr "soon"]> (json_rec 1 2.5))
    = Raise ValueError /\
  get_slot_times no_parse (<["start_sec"%string := JNull]> (json_rec 1 2.5))
    = Raise TypeError /\
  get_slot_times no_parse (<["start_sec"%string := JInt 1]> {["end"%string := JInt 2]})
    = Raise KeyError.
Proof. vm_compute. auto 6. Qed.

(** For the records (5,6) and (0,1) the record that is first in the file
    comes second after the sort and reads [seg_0002.mp3]; alone it reads
    [seg_0001.mp3]. *)
Example clip_key_follows_sort_order :
  build_processed no_parse demo_args late_first [0%nat; 1%nat]
    = Ok (built demo_args late_first [0%nat; 1%nat], [1%nat; 0%nat]) /\
  seg_file_name (slot_index (1 + Z.of_nat (length [1%nat]))
                   (built demo_args late_first [0%nat; 1%nat] !!! 0%nat))
    = Ok "seg_0002.mp3"%string /\
  build_processed no_parse demo_args late_first [0%nat]
    = Ok (built demo_args late_first [0%nat], [0%nat]) /\
  seg_file_name (slot_index (1 + Z.of_nat (length (@nil loc)))
                   (built demo_args late_first [0%nat] !!! 0%nat))
    = Ok "seg_0001.mp3"%string.
Proof. vm_compute. auto. Qed.

End Runs.

(** * Edge behaviour, composition and the loader *)

(** ** Writes at the edges of the track *)

Section WriteFacts.

Import PyFloat PySeq PyFloatFacts PySeqFacts.

(** Whether a write raises depends on the length of the track only. *)
Lemma write_slot_ok_length total t1 t2 start_sample slot_len aligned :
  length t1 = length t2 ->
  is_ok (write_slot total t1 start_sample slot_len aligned)
    = is_ok (write_slot total t2 start_sample slot_len aligned).
Proof.
  intros H. unfold write_slot, slice_assign. rewrite H.
  destruct (region _ _ _) as [a len].
  destruct (_ =? len); [reflexivity|].
  destruct (slice_to aligned _) as [|x [|y v]]; reflexivity.
Qed.

(** A write that starts within the track: what does not fit is cut. *)
Lemma write_slot_in_range total track start_sample slot_len aligned :
  Z.of_nat (length track) = total ->
  0 <= start_sample <= total ->
  0 <= slot_len ->
  Z.of_nat (length aligned) = slot_len ->
  let kept := Z.min slot_len (total - start_sample) in
  write_slot total track start_sample slot_len aligned
    = Ok (take (Z.to_nat start_sample) track ++ take (Z.to_nat kept) aligned
            ++ drop (Z.to_nat (start_sample + kept)) track).
Proof.
  intros Hlen Hs Hl Hal kept. unfold write_slot, slice_assign.
  set (end_pos := Z.min (start_sample + slot_len) total).
  assert (Hk : end_pos - start_sample = kept) by (subst end_pos kept; lia).
  assert (R : region (Z.of_nat (length track)) start_sample end_pos
              = (start_sample, kept)).
  { unfold region. rewrite !clamp_index_inside by (subst end_pos; lia).
    f_equal. subst end_pos kept. lia. }
  rewrite R, Hk.
  rewrite slice_to_nonneg by (subst kept; lia).
  assert (Hv : Z.of_nat (length (take (Z.to_nat kept) aligned)) = kept).
  { rewrite length_take. subst kept. lia. }
  rewrite Hv, Z.eqb_refl. reflexivity.
Qed.

(** A write that starts after the end of the track: the slice of the track
    is empty, the buffer keeps what lies beyond the distance to the end. *)
Lemma write_slot_past_end total track start_sample slot_len aligned :
  Z.of_nat (length track) = total ->
  total < start_sample ->
  0 < slot_len ->
  Z.of_nat (length aligned) = slot_len ->
  write_slot total track start_sample slot_len aligned
    = if slot_len <=? start_sample - total + 1 then Ok track else Raise ValueError.
Proof.
  intros Hlen Hs Hl Hal. unfold write_slot, slice_assign.
  replace (Z.min (start_sample + slot_len) total) with total by lia.
  assert (R : region (Z.of_nat (length track)) start_sample total = (total, 0)).
  { unfold region, clamp_index. rewrite Hlen.
    destruct (start_sample <? 0) eqn:E1; [lia|].
    destruct (total <? 0) eqn:E2; [lia|]. f_equal; lia. }
  rewrite R.
  assert (Hput : forall w, w = [] ->
            take (Z.to_nat total) track ++ w ++ drop (Z.to_nat (total + 0)) track = track).
  { intros w ->. rewrite Z.add_0_r. simpl. apply take_drop. }
  set (v := slice_to aligned (total - start_sample)).
  assert (Hv : Z.of_nat (length v) = Z.max 0 (slot_len - (start_sample - total))).
  { subst v. unfold slice_to, clamp_index. rewrite Hal.
    destruct (total - start_sample <? 0) eqn:E; [|lia].
    rewrite length_take. lia. }
  destruct (slot_len <=? start_sample - total + 1) eqn:E.
  - destruct (Z.of_nat (length v) =? 0) eqn:E0.
    + f_equal. apply Hput. destruct v; [reflexivity|simpl in E0; lia].
    + destruct v as [|x [|y v']]; simpl in Hv, E0; try lia.
      f_equal. apply Hput. reflexivity.
  - destruct (Z.of_nat (length v) =? 0) eqn:E0; [lia|].
    destruct v as [|x [|y v']]; simpl in Hv, E0; try lia. reflexivity.
Qed.

(** A write that starts before position zero and ends at or after it. *)
Lemma write_slot_across_zero total track start_sample slot_len aligned :
  Z.of_nat (length track) = total ->
  start_sample < 0 ->
  0 <= total + start_sample ->
  0 <= start_sample + slot_len ->
  1 < slot_len ->
  Z.of_nat (length aligned) = slot_len ->
  write_slot total track start_sample slot_len aligned = Raise ValueError.
Proof.
  intros Hlen Hs Hw He Hl Hal. unfold write_slot, slice_assign.
  set (end_pos := Z.min (start_sample + slot_len) total).
  assert (R : region (Z.of_nat (length track)) start_sample end_pos
              = (total + start_sample, Z.max 0 (end_pos - (total + start_sample)))).
  { unfold region, clamp_index. rewrite Hlen.
    destruct (start_sample <? 0) eqn:E1; [|lia].
    destruct (end_pos <? 0) eqn:E2; [subst end_pos; lia|].
    f_equal; subst end_pos; lia. }
  rewrite R.
  set (v := slice_to aligned (end_pos - start_sample)).
  assert (Hv : Z.of_nat (length v) = end_pos - start_sample).
  { subst v. rewrite slice_to_length by (subst end_pos; lia). subst end_pos. lia. }
  destruct (Z.of_nat (length v) =? _) eqn:E0; [subst end_pos; lia|].
  destruct v as [|x [|y v']]; simpl in Hv; try reflexivity; subst end_pos; lia.
Qed.

(** A write that ends before position zero: both bounds count from the end. *)
Lemma write_slot_before_zero total track start_sample slot_len aligned :
  Z.of_nat (length track) = total ->
  0 < slot_len ->
  start_sample + slot_len < 0 ->
  0 <= total + start_sample ->
  Z.of_nat (length aligned) = slot_len ->
  write_slot total track start_sample slot_len aligned
    = Ok (take (Z.to_nat (total + start_sample)) track ++ aligned
            ++ drop (Z.to_nat (total + start_sample + slot_len)) track).
Proof.
  intros Hlen Hl He Hw Hal. unfold write_slot, slice_assign.
  replace (Z.min (start_sample + slot_len) total) with (start_sample + slot_len) by lia.
  assert (R : region (Z.of_nat (length track)) start_sample (start_sample + slot_len)
              = (total + start_sample, slot_len)).
  { unfold region, clamp_index. rewrite Hlen.
    destruct (start_sample <? 0) eqn:E1; [|lia].
    destruct (start_sample + slot_len <? 0) eqn:E2; [|lia].
    f_equal; lia. }
  rewrite R.
  replace (start_sample + slot_len - start_sample) with slot_len by lia.
  rewrite slice_to_nonneg by lia. rewrite take_ge by lia.
  rewrite Hal, Z.eqb_refl. reflexivity.
Qed.

(** The positions a placement with a start that is not negative covers. *)
Lemma covers_nonneg_start total start_sample slot_len aligned pos :
  0 <= total -> 0 <= start_sample -> 0 <= slot_len ->
  covers total (Place start_sample slot_len aligned) pos
    = (start_sample <=? pos) && (pos <? Z.min (start_sample + slot_len) total).
Proof.
  intros Ht Hs Hl. unfold covers, region, clamp_index.
  destruct (start_sample <? 0) eqn:E1; [lia|].
  destruct (Z.min (start_sample + slot_len) total <? 0) eqn:E2; [lia|].
  destruct (start_sample <=? pos) eqn:E3; destruct (pos <? Z.min (start_sample + slot_len) total) eqn:E4;
    lia.
Qed.

End WriteFacts.

(** ** Slots at the edges of the track *)

Section EdgeFacts.

Variable time_stretch : list float -> float -> list float.

Import PyFloat PySeq PyFloatFacts PySeqFacts.

(** An iteration whose plan is a placement is the write of that placement. *)
Lemma process_slot_Place a fs sr total st n i seg track log start_sample slot_len aligned evs :
  plan_slot time_stretch a fs sr i n (st !!! seg)
    = Ok (Place start_sample slot_len aligned, evs) ->
  process_slot time_stretch a fs sr total st n i seg (track, log)
    = (let* track' := write_slot total track start_sample slot_len aligned in
       Ok (track', log ++ evs)).
Proof. intros H. unfold process_slot. rewrite H. reflexivity. Qed.

(** X1. A slot that starts within the track is written from its start
    sample on and cut at the end of the track: the iteration never raises,
    the samples before the start and after the slot stay as they were, and
    of the aligned buffer only the first [min(slot_len, total - start)]
    samples are written. *)
Theorem slot_within_track_is_cut_at_end a fs sr total st n i seg track log
    start_sample slot_len aligned evs :
  Z.of_nat (length track) = total ->
  plan_slot time_stretch a fs sr i n (st !!! seg)
    = Ok (Place start_sample slot_len aligned, evs) ->
  0 <= start_sample <= total ->
  let kept := Z.min slot_len (total - start_sample) in
  process_slot time_stretch a fs sr total st n i seg (track, log)
    = Ok (take (Z.to_nat start_sample) track ++ take (Z.to_nat kept) aligned
            ++ drop (Z.to_nat (start_sample + kept)) track,
          log ++ evs).
Proof.
  intros Hlen Hplan Hs kept.
  destruct (plan_slot_Place _ _ _ _ _ _ _ _ _ _ _ Hplan) as [Hl Hal].
  rewrite (process_slot_Place _ _ _ _ _ _ _ _ _ _ _ _ _ _ Hplan).
  rewrite (write_slot_in_range total track start_sample slot_len aligned Hlen Hs
             ltac:(lia) Hal).
  reflexivity.
Qed.

(** X2. A slot that starts [d > 0] samples after the end of the track
    selects an empty slice of the track, while the buffer cut for it keeps
    [slot_len - d] samples: the iteration leaves the track unchanged when
    [slot_len <= d + 1] and raises [ValueError] otherwise. *)
Theorem slot_past_track_end a fs sr total st n i seg track log
    start_sample slot_len aligned evs :
  Z.of_nat (length track) = total ->
  plan_slot time_stretch a fs sr i n (st !!! seg)
    = Ok (Place start_sample slot_len aligned, evs) ->
  total < start_sample ->
  process_slot time_stretch a fs sr total st n i seg (track, log)
    = if slot_len <=? start_sample - total + 1 then Ok (track, log ++ evs)
      else Raise ValueError.
Proof.
  intros Hlen Hplan Hs.
  destruct (plan_slot_Place _ _ _ _ _ _ _ _ _ _ _ Hplan) as [Hl Hal].
  rewrite (process_slot_Place _ _ _ _ _ _ _ _ _ _ _ _ _ _ Hplan).
  rewrite (write_slot_past_end total track start_sample slot_len aligned Hlen Hs Hl Hal).
  destruct (slot_len <=? start_sample - total + 1); reflexivity.
Qed.

(** X3. A slot of more than one sample that starts before sample zero (by
    at most the track length) and ends at or after it raises [ValueError]:
    the negative start counts from the end of the track, the slice is
    empty or shorter than the buffer, and the assignment fails. *)
Theorem slot_across_time_zero_raises a fs sr total st n i seg track log
    start_sample slot_len aligned evs :
  Z.of_nat (length track) = total ->
  plan_slot time_stretch a fs sr i n (st !!! seg)
    = Ok (Place start_sample slot_len aligned, evs) ->
  start_sample < 0 ->
  0 <= total + start_sample ->
  0 <= start_sample + slot_len ->
  1 < slot_len ->
  process_slot time_stretch a fs sr total st n i seg (track, log) = Raise ValueError.
Proof.
  intros Hlen Hplan Hs Hw He Hl.
  destruct (plan_slot_Place _ _ _ _ _ _ _ _ _ _ _ Hplan) as [_ Hal].
  rewrite (process_slot_Place _ _ _ _ _ _ _ _ _ _ _ _ _ _ Hplan).
  rewrite (write_slot_across_zero total track start_sample slot_len aligned
             Hlen Hs Hw He Hl Hal).
  reflexivity.
Qed.

(** X4. A slot that ends before sample zero is not dropped: both bounds
    count from the end of the track, and the whole aligned buffer is
    written at [total + start_sample]. *)
Theorem slot_before_time_zero_wraps a fs sr total st n i seg track log
    start_sample slot_len aligned evs :
  Z.of_nat (length track) = total ->
  plan_slot time_stretch a fs sr i n (st !!! seg)
    = Ok (Place start_sample slot_len aligned, evs) ->
  start_sample + slot_len < 0 ->
  0 <= total + start_sample ->
  process_slot time_stretch a fs sr total st n i seg (track, log)
    = Ok (take (Z.to_nat (total + start_sample)) track ++ aligned
            ++ drop (Z.to_nat (total + start_sample + slot_len)) track,
          log ++ evs).
Proof.
  intros Hlen Hplan He Hw.
  destruct (plan_slot_Place _ _ _ _ _ _ _ _ _ _ _ Hplan) as [Hl Hal].
  rewrite (process_slot_Place _ _ _ _ _ _ _ _ _ _ _ _ _ _ Hplan).
  rewrite (write_slot_before_zero total track start_sample slot_len aligned
             Hlen Hl He Hw Hal).
  reflexivity.
Qed.

(** X5. The iterations of two placed slots whose sample windows do not
    intersect (both starting at a sample that is not negative) commute:
    run in either order from the same track they both complete or both
    raise, and when they complete they leave the same track. *)
Theorem disjoint_slots_commute a fs sr total st n i j si sj track log
    start_i len_i aligned_i evs_i start_j len_j aligned_j evs_j :
  Z.of_nat (length track) = total ->
  plan_slot time_stretch a fs sr i n (st !!! si)
    = Ok (Place start_i len_i aligned_i, evs_i) ->
  plan_slot time_stretch a fs sr j n (st !!! sj)
    = Ok (Place start_j len_j aligned_j, evs_j) ->
  0 <= start_i -> 0 <= start_j ->
  start_i + len_i <= start_j \/ start_j + len_j <= start_i ->
  let run_ij :=
    let* s := process_slot time_stretch a fs sr total st n i si (track, log) in
    process_slot time_stretch a fs sr total st n j sj s in
  let run_ji :=
    let* s := process_slot time_stretch a fs sr total st n j sj (track, log) in
    process_slot time_stretch a fs sr total st n i si s in
  is_ok run_ij = is_ok run_ji /\
  forall t1 log1 t2 log2,
    run_ij = Ok (t1, log1) -> run_ji = Ok (t2, log2) -> t1 = t2.
Proof.
  intros Hlen Hpi Hpj Hsi Hsj Hdis run_ij run_ji.
  destruct (plan_slot_Place _ _ _ _ _ _ _ _ _ _ _ Hpi) as [Hli Hali].
  destruct (plan_slot_Place _ _ _ _ _ _ _ _ _ _ _ Hpj) as [Hlj Halj].
  assert (Ht : 0 <= total) by lia.
  subst run_ij run_ji.
  rewrite (process_slot_Place _ _ _ _ _ _ _ _ track log _ _ _ _ Hpi).
  rewrite (process_slot_Place _ _ _ _ _ _ _ _ track log _ _ _ _ Hpj).
  destruct (write_slot total track start_i len_i aligned_i) as [ti|ei] eqn:Ei;
    destruct (write_slot total track start_j len_j aligned_j) as [tj|ej] eqn:Ej;
    cbn [bind].
  - pose proof (write_slot_length _ _ _ _ _ _ Ei) as Hlti.
    pose proof (write_slot_length _ _ _ _ _ _ Ej) as Hltj.
    rewrite (process_slot_Place _ _ _ _ _ _ _ _ ti _ _ _ _ _ Hpj).
    rewrite (process_slot_Place _ _ _ _ _ _ _ _ tj _ _ _ _ _ Hpi).
    pose proof (write_slot_ok_length total ti track start_j len_j aligned_j Hlti) as Hokj.
    pose proof (write_slot_ok_length total tj track start_i len_i aligned_i Hltj) as Hoki.
    rewrite Ej in Hokj. rewrite Ei in Hoki.
    destruct (write_slot total ti start_j len_j aligned_j) as [tij|] eqn:Eij;
      [|discriminate].
    destruct (write_slot total tj start_i len_i aligned_i) as [tji|] eqn:Eji;
      [|discriminate].
    cbn [bind]. split; [reflexivity|].
    intros t1 log1 t2 log2 [= <- _] [= <- _].
    apply list_eq. intros k.
    pose proof (covers_nonneg_start total start_i len_i aligned_i (Z.of_nat k)
                  Ht Hsi ltac:(lia)) as Hci.
    pose proof (covers_nonneg_start total start_j len_j aligned_j (Z.of_nat k)
                  Ht Hsj ltac:(lia)) as Hcj.
    rewrite <- (Nat2Z.id k).
    destruct (covers total (Place start_i len_i aligned_i) (Z.of_nat k)) eqn:Ci.
    + assert (Cj : covers total (Place start_j len_j aligned_j) (Z.of_nat k) = false)
        by (rewrite Hcj; lia).
      rewrite (write_slot_outside total ti start_j len_j aligned_j tij (Z.of_nat k)
                 ltac:(lia) Eij Cj ltac:(lia)).
      destruct (write_slot_inside total track start_i len_i aligned_i ti (Z.of_nat k)
                  Hlen Hsi Hali Ei Ci) as (_ & _ & ->).
      destruct (write_slot_inside total tj start_i len_i aligned_i tji (Z.of_nat k)
                  ltac:(lia) Hsi Hali Eji Ci) as (_ & _ & ->).
      reflexivity.
    + rewrite (write_slot_outside total tj start_i len_i aligned_i tji (Z.of_nat k)
                 ltac:(lia) Eji Ci ltac:(lia)).
      destruct (covers total (Place start_j len_j aligned_j) (Z.of_nat k)) eqn:Cj.
      * destruct (write_slot_inside total ti start_j len_j aligned_j tij (Z.of_nat k)
                    ltac:(lia) Hsj Halj Eij Cj) as (_ & _ & ->).
        destruct (write_slot_inside total track start_j len_j aligned_j tj (Z.of_nat k)
                    Hlen Hsj Halj Ej Cj) as (_ & _ & ->).
        reflexivity.
      * rewrite (write_slot_outside total ti start_j len_j aligned_j tij (Z.of_nat k)
                   ltac:(lia) Eij Cj ltac:(lia)).
        rewrite (write_slot_outside total track start_i len_i aligned_i ti (Z.of_nat k)
                   Hlen Ei Ci ltac:(lia)).
        rewrite (write_slot_outside total track start_j len_j aligned_j tj (Z.of_nat k)
                   Hlen Ej Cj ltac:(lia)).
        reflexivity.
  - pose proof (write_slot_length _ _ _ _ _ _ Ei) as Hlti.
    rewrite (process_slot_Place _ _ _ _ _ _ _ _ ti _ _ _ _ _ Hpj).
    pose proof (write_slot_ok_length total ti track start_j len_j aligned_j Hlti) as Hokj.
    rewrite Ej in Hokj.
    destruct (write_slot total ti start_j len_j aligned_j); [discriminate|].
    split; [reflexivity|]. intros; discriminate.
  - pose proof (write_slot_length _ _ _ _ _ _ Ej) as Hltj.
    rewrite (process_slot_Place _ _ _ _ _ _ _ _ tj _ _ _ _ _ Hpi).
    pose proof (write_slot_ok_length total tj track start_i len_i aligned_i Hltj) as Hoki.
    rewrite Ei in Hoki.
    destruct (write_slot total tj start_i len_i aligned_i); [discriminate|].
    split; [reflexivity|]. intros; discriminate.
  - split; [reflexivity|]. intros; discriminate.
Qed.

(** X6. In a run that completes, a position of the track that no placed
    slot covers holds silence: the sample is the zero the track was
    allocated with. *)
Theorem uncovered_positions_are_silent a fs sr total st processed track log (pos : Z) :
  assemble time_stretch a fs sr total st processed = Ok (track, log) ->
  0 <= pos < total ->
  (forall (k : nat) sk pk evk,
     processed !! k = Some sk ->
     plan_slot time_stretch a fs sr (1 + Z.of_nat k) (Z.of_nat (length processed))
       (st !!! sk) = Ok (pk, evk) ->
     covers total pk pos = false) ->
  track !! Z.to_nat pos = Some 0%float.
Proof.
  intros H Hpos Hout. apply assemble_Ok in H. destruct H as [Ht Hloop].
  assert (E : track !! Z.to_nat pos
               = replicate (Z.to_nat total) 0%float !! Z.to_nat pos).
  { eapply assemble_loop_outside; [ | | exact Hloop | exact Hout].
    - rewrite length_replicate. lia.
    - lia. }
  rewrite E. apply lookup_replicate_2. lia.
Qed.

(** X7. The final truncation or padding never changes anything: for a
    total length that is not negative the assembly is the loop on the
    zero-filled track, with the same result and the same exception. *)
Theorem finalization_is_a_no_op a fs sr total st processed :
  0 <= total ->
  assemble time_stretch a fs sr total st processed
    = assemble_loop time_stretch a fs sr total st (Z.of_nat (length processed)) 1
        processed (replicate (Z.to_nat total) 0%float, []).
Proof.
  intros Ht. unfold assemble, np_zeros. destruct (total <? 0) eqn:E; [lia|].
  cbn [bind].
  destruct (assemble_loop _ _ _ _ _ _ _ _ _ _) as [[track log]|e] eqn:Hloop;
    [|reflexivity].
  cbn [bind]. rewrite finalize_id; [reflexivity|].
  apply assemble_loop_length in Hloop. rewrite Hloop, length_replicate. lia.
Qed.

End EdgeFacts.

(** ** The aligned buffer *)

Section AlignedBufferFacts.

Variable time_stretch : list float -> float -> list float.

Import PyFloat PySeq PyFloatFacts PySeqFacts.

(** X8. The aligned buffer has exactly [slot_len] samples on both paths,
    whatever the stretch primitive returns.  The alignment raises in one
    case only, [ZeroDivisionError] from the rate when the stretch is needed
    and the slot duration is zero; with a non-zero slot duration it always
    completes. *)
Theorem aligned_buffer_has_slot_length a audio cur_dur slot_duration slot_len :
  0 <= slot_len ->
  (forall aligned evs,
     align_clip time_stretch a audio cur_dur slot_duration slot_len = Ok (aligned, evs) ->
     Z.of_nat (length aligned) = slot_len) /\
  (forall e,
     align_clip time_stretch a audio cur_dur slot_duration slot_len = Raise e ->
     e = ZeroDivisionError /\
     PrimFloat.eqb slot_duration 0%float = true /\
     need_stretch a slot_duration cur_dur = Ok true) /\
  (PrimFloat.eqb slot_duration 0%float = false ->
   is_ok (align_clip time_stretch a audio cur_dur slot_duration slot_len) = true).
Proof.
  intros Hl. unfold align_clip. rewrite need_stretch_eq. cbn [bind].
  set (need := _ && _). unfold stretch_rate, py_div.
  destruct need; cbn [negb].
  - destruct (PrimFloat.eqb slot_duration 0%float) eqn:E; cbn [bind].
    + split; [intros; discriminate|]. split; [|intros; discriminate].
      intros e [= <-]. auto.
    + split; [|split; [intros; discriminate|reflexivity]].
      intros aligned evs [= <- _]. apply crop_pad_length. exact Hl.
  - split; [|split; [intros; discriminate|reflexivity]].
    intros aligned evs [= <- _]. apply crop_pad_length. exact Hl.
Qed.

End AlignedBufferFacts.

(** ** What the build needs and what it stores *)

Section BuildEdgeFacts.

Variable float_of_string : string -> option float.

Import PyFloat PySeq PyFloatFacts PySeqFacts.

(** Adding the helper fields to one record reads its times, raises what
    that raises, and leaves the times of every record readable as before. *)
Lemma add_time_fields_reads st seg :
  match add_time_fields float_of_string st seg with
  | Ok st' =>
    is_ok (get_slot_times float_of_string (st !!! seg)) = true /\
    forall l : loc, get_slot_times float_of_string (st' !!! l)
                    = get_slot_times float_of_string (st !!! l)
  | Raise e => get_slot_times float_of_string (st !!! seg) = Raise e
  end.
Proof.
  destruct (add_time_fields float_of_string st seg) as [st'|e] eqn:E.
  - destruct (add_time_fields_Ok _ _ _ _ E) as (Hframe & _ & s & e' & Ht & _).
    split; [rewrite Ht; reflexivity|].
    intros l. apply get_slot_times_frame. intros k Hk. apply Hframe. exact Hk.
  - unfold add_time_fields in E.
    destruct (get_slot_times float_of_string (st !!! seg)) as [[s e']|e0]; simpl in E;
      congruence.
Qed.

(** The helper fields are added to all kept records or the first record
    without readable times raises. *)
Lemma add_all_time_fields_reads segs :
  forall st,
  match add_all_time_fields float_of_string st segs with
  | Ok _ => Forall (fun l => is_ok (get_slot_times float_of_string (st !!! l)) = true) segs
  | Raise e =>
    exists pre l post,
      segs = pre ++ l :: post /\
      Forall (fun l => is_ok (get_slot_times float_of_string (st !!! l)) = true) pre /\
      get_slot_times float_of_string (st !!! l) = Raise e
  end.
Proof.
  induction segs as [|seg rest IH]; intros st; simpl.
  - constructor.
  - pose proof (add_time_fields_reads st seg) as H1.
    destruct (add_time_fields float_of_string st seg) as [st1|e]; simpl.
    + destruct H1 as [Hseg Hsame]. specialize (IH st1).
      destruct (add_all_time_fields float_of_string st1 rest) as [st2|e].
      * constructor; [exact Hseg|].
        eapply List.Forall_impl; [|exact IH]. intros l Hl. simpl in Hl.
        rewrite <- Hsame. exact Hl.
      * destruct IH as (pre & l & post & -> & Hpre & Hl).
        exists (seg :: pre), l, post. split; [reflexivity|]. split.
        -- constructor; [exact Hseg|].
           eapply List.Forall_impl; [|exact Hpre]. intros l' Hl'. simpl in Hl'.
           rewrite <- Hsame. exact Hl'.
        -- rewrite <- Hsame. exact Hl.
    + exists [], seg, rest. split; [reflexivity|]. split; [constructor|exact H1].
Qed.

(** Once the helper fields are set the sort finds every key. *)
Lemma sort_processed_total (st0 st : store) segs :
  (forall l : loc, l ∈ segs -> fields_set float_of_string st0 st l) ->
  is_ok (sort_processed st segs) = true.
Proof.
  intros H. unfold sort_processed.
  assert (Hm : exists keyed,
             map_result (fun seg => let* k := get_float (st !!! seg) "_start_sec" in Ok (k, seg))
               segs = Ok keyed).
  { induction segs as [|seg rest IH]; simpl; [eauto|].
    destruct (H seg ltac:(apply list_elem_of_here)) as (s & e & _ & Hs & _).
    unfold get_float at 1, get_item. rewrite Hs. simpl.
    destruct IH as [keyed Hk]; [intros l Hl; apply H; apply list_elem_of_further; exact Hl|].
    rewrite Hk. simpl. eauto. }
  destruct Hm as [keyed ->]. reflexivity.
Qed.

(** X9. Building the processed sequence completes exactly when the times
    of every kept record can be read; records cut off by [max_segments] are
    never looked at.  When it raises, the exception is the one
    [get_slot_times] raises on the first kept record it fails on. *)
Theorem build_needs_readable_times_of_kept_records a st all_segments :
  is_ok (build_processed float_of_string a st all_segments)
    = forallb (fun l : loc => is_ok (get_slot_times float_of_string (st !!! l)))
        (truncate a all_segments) /\
  forall e,
    build_processed float_of_string a st all_segments = Raise e ->
    exists pre l post,
      truncate a all_segments = pre ++ l :: post /\
      forallb (fun l : loc => is_ok (get_slot_times float_of_string (st !!! l))) pre = true /\
      get_slot_times float_of_string (st !!! l) = Raise e.
Proof.
  set (readable := fun l : loc => is_ok (get_slot_times float_of_string (st !!! l))).
  unfold build_processed.
  pose proof (add_all_time_fields_reads (truncate a all_segments) st) as H.
  destruct (add_all_time_fields float_of_string st (truncate a all_segments))
    as [st'|e] eqn:E; cbn [bind].
  - destruct (add_all_time_fields_Ok _ _ _ _ E) as (_ & _ & Hin).
    pose proof (sort_processed_total st st' _ Hin) as Hs.
    destruct (sort_processed st' (truncate a all_segments)) as [p|e]; [|discriminate].
    cbn [bind is_ok]. split; [|intros; discriminate].
    symmetry. apply forallb_forall. rewrite List.Forall_forall in H. exact H.
  - destruct H as (pre & l & post & Hsplit & Hpre & Hl). split.
    + cbn [is_ok]. symmetry. rewrite Hsplit, forallb_app. simpl.
      subst readable. simpl. rewrite Hl. simpl. apply andb_false_r.
    + intros e' [= <-]. exists pre, l, post. split; [exact Hsplit|].
      split; [|exact Hl]. apply forallb_forall. rewrite List.Forall_forall in Hpre.
      exact Hpre.
Qed.

(** The stored duration is zero or positive. *)
Lemma py_max_zero_nonneg x :
  is_nan (py_max 0%float x) = false /\ PrimFloat.leb 0%float (py_max 0%float x) = true.
Proof.
  unfold py_max, gtb. destruct (PrimFloat.ltb 0%float x) eqn:E.
  - split; [apply (ltb_not_nan _ _ E)|apply ltb_leb; exact E].
  - split; vm_compute; reflexivity.
Qed.

(** A processed record is a kept record. *)
Lemma processed_kept a st all_segments st' processed (l : loc) :
  build_processed float_of_string a st all_segments = Ok (st', processed) ->
  l ∈ processed -> l ∈ truncate a all_segments.
Proof.
  intros H Hl. apply build_processed_Ok in H. destruct H as [_ ->].
  rewrite sorted_keys_perm in Hl. exact Hl.
Qed.

(** The window of a processed record, from the times of the input record. *)
Lemma slot_window_built a st all_segments st' processed (l : loc) (sr : Z) :
  build_processed float_of_string a st all_segments = Ok (st', processed) ->
  l ∈ processed ->
  exists start_sec end_sec,
    get_slot_times float_of_string (st !!! l) = Ok (start_sec, end_sec) /\
    slot_window sr (st' !!! l) =
      (let* start_scaled := mul_int start_sec sr in
       let* start_sample := py_round start_scaled in
       let* end_scaled := mul_int end_sec sr in
       let* end_sample := py_round end_scaled in
       Ok (start_sec, end_sec, py_max 0%float (end_sec - start_sec)%float,
           start_sample, end_sample)).
Proof.
  intros H Hl. pose proof (processed_kept _ _ _ _ _ _ H Hl) as Hk.
  apply build_processed_Ok in H. destruct H as [Hadd _].
  destruct (add_all_time_fields_Ok _ _ _ _ Hadd) as (_ & _ & Hin).
  destruct (Hin l Hk) as (s & e & Ht & Hs & He & Hd).
  exists s, e. split; [exact Ht|].
  unfold slot_window, get_float, get_item. rewrite Hs, He, Hd. reflexivity.
Qed.

(** X10. For every processed record the loop's slot window is computed
    from the times [get_slot_times] read from the input record, through the
    helper fields stored in between; the slot duration it uses is
    [max(0, end - start)], which is never a NaN and never negative. *)
Theorem loop_reads_the_times_of_the_input_record a st all_segments st' processed
    (l : loc) (sr : Z) :
  build_processed float_of_string a st all_segments = Ok (st', processed) ->
  l ∈ processed ->
  exists start_sec end_sec,
    get_slot_times float_of_string (st !!! l) = Ok (start_sec, end_sec) /\
    let slot_duration := py_max 0%float (end_sec - start_sec)%float in
    is_nan slot_duration = false /\
    PrimFloat.leb 0%float slot_duration = true /\
    slot_window sr (st' !!! l) =
      (let* start_scaled := mul_int start_sec sr in
       let* start_sample := py_round start_scaled in
       let* end_scaled := mul_int end_sec sr in
       let* end_sample := py_round end_scaled in
       Ok (start_sec, end_sec, slot_duration, start_sample, end_sample)).
Proof.
  intros H Hl.
  destruct (slot_window_built _ _ _ _ _ _ sr H Hl) as (s & e & Ht & Hw).
  exists s, e. split; [exact Ht|].
  destruct (py_max_zero_nonneg (e - s)%float) as [Hn Hp].
  split; [exact Hn|]. split; [exact Hp|]. exact Hw.
Qed.

(** A product with a NaN is a NaN, and rounding it raises. *)
Lemma mul_int_nan x sr f :
  float_of_Z sr = Ok f -> is_nan x = true ->
  (let* scaled := mul_int x sr in py_round scaled) = Raise ValueError.
Proof.
  intros Hf Hx. unfold mul_int. rewrite Hf. cbn [bind]. unfold py_round.
  rewrite FloatAxioms.mul_spec. rewrite is_nan_spec in Hx.
  destruct (Prim2SF x); try discriminate. reflexivity.
Qed.

(** X11. A record whose start time is a NaN, or whose end time is one
    while the start rounds, passes the build and the sort; its iteration of
    the assembly loop raises [ValueError] at the rounding to a sample
    index. *)
Theorem nan_time_aborts_the_run (time_stretch : list float -> float -> list float)
    a fs sr total n i st all_segments st' processed (l : loc) track log
    start_sec end_sec f :
  build_processed float_of_string a st all_segments = Ok (st', processed) ->
  l ∈ processed ->
  get_slot_times float_of_string (st !!! l) = Ok (start_sec, end_sec) ->
  float_of_Z sr = Ok f ->
  is_nan start_sec = true \/
    (is_ok (py_round (start_sec * f)%float) = true /\ is_nan end_sec = true) ->
  process_slot time_stretch a fs sr total st' n i l (track, log) = Raise ValueError.
Proof.
  intros H Hl Ht Hf Hnan.
  destruct (slot_window_built _ _ _ _ _ _ sr H Hl) as (s & e & Ht' & Hw).
  rewrite Ht in Ht'. injection Ht' as <- <-.
  assert (Hraise : slot_window sr (st' !!! l) = Raise ValueError).
  { rewrite Hw. destruct Hnan as [Hs|[Hs He]].
    - pose proof (mul_int_nan start_sec sr f Hf Hs) as Hm.
      unfold mul_int in *. rewrite Hf in *. cbn [bind] in *.
      rewrite Hm. reflexivity.
    - pose proof (mul_int_nan end_sec sr f Hf He) as Hm.
      unfold mul_int in *. rewrite Hf in *. cbn [bind] in *.
      destruct (py_round (start_sec * f)%float) as [ss|ex]; [|discriminate].
      cbn [bind]. rewrite Hm. reflexivity. }
  unfold process_slot, plan_slot, resolve_slot. rewrite Hraise. reflexivity.
Qed.

(** In an ascending list nothing that comes later is strictly smaller. *)
Lemma sorted_earlier_not_greater (key : loc -> float) pre x mid y post :
  StronglySorted (fun l1 l2 => PrimFloat.leb (key l1) (key l2) = true)
    (pre ++ x :: mid ++ y :: post) ->
  PrimFloat.ltb (key y) (key x) = false.
Proof.
  intros H. induction pre as [|p pre IH].
  2:{ apply IH. simpl in H. apply StronglySorted_inv in H. tauto. }
  simpl in H. apply StronglySorted_inv in H. destruct H as [_ H].
  rewrite List.Forall_forall in H. apply leb_not_gt. apply H.
  apply in_or_app. right. left. reflexivity.
Qed.

(** X12. When no start is a NaN, a kept record that starts strictly
    earlier than another one comes before it in the processing sequence. *)
Theorem earlier_start_is_processed_first a st all_segments st' processed (li lj : loc) :
  build_processed float_of_string a st all_segments = Ok (st', processed) ->
  Forall (fun l => is_nan (start_key st' l) = false) (truncate a all_segments) ->
  li ∈ truncate a all_segments ->
  lj ∈ truncate a all_segments ->
  PrimFloat.ltb (start_key st' li) (start_key st' lj) = true ->
  exists pre mid post, processed = pre ++ li :: mid ++ lj :: post.
Proof.
  intros H Hnan Hi Hj Hlt.
  apply build_processed_Ok in H. destruct H as [_ ->].
  pose proof (sorted_keys_ascending st' _ Hnan) as Hs.
  pose proof (sorted_keys_perm st' (truncate a all_segments)) as Hp.
  set (processed := map snd _) in *. clearbody processed.
  rewrite <- Hp in Hi, Hj.
  apply list_elem_of_split in Hi. destruct Hi as (pre & rest & ->).
  assert (Hne : lj <> li).
  { intros ->. rewrite ltb_asym in Hlt by exact Hlt. discriminate. }
  apply elem_of_app in Hj. destruct Hj as [Hj|Hj].
  - exfalso. apply list_elem_of_split in Hj. destruct Hj as (p1 & p2 & ->).
    rewrite <- app_assoc in Hs. simpl in Hs.
    apply sorted_earlier_not_greater in Hs. congruence.
  - apply elem_of_cons in Hj. destruct Hj as [Hj|Hj]; [contradiction|].
    apply list_elem_of_split in Hj. destruct Hj as (mid & post & ->).
    exists pre, mid, post. reflexivity.
Qed.

End BuildEdgeFacts.

(** ** The index and the clip file name *)

Section IndexFacts.

Variable time_stretch : list float -> float -> list float.

Import PyFloat PySeq PyFloatFacts PySeqFacts.

(** X13. For a record that has an [index] field the clip is chosen by
    that field and not by the position in the processing sequence: at every
    loop counter the iteration plans the same placement and raises the same
    exception, and it reads the segments directory only at the name
    formatted from the field. *)
Theorem index_field_selects_the_clip a fs sr (seg : record) v i n i' n' :
  seg !! "index"%string = Some v ->
  slot_index i seg = v /\
  (forall p evs,
     plan_slot time_stretch a fs sr i n seg = Ok (p, evs) ->
     exists evs', plan_slot time_stretch a fs sr i' n' seg = Ok (p, evs')) /\
  (forall e,
     plan_slot time_stretch a fs sr i n seg = Raise e ->
     plan_slot time_stretch a fs sr i' n' seg = Raise e) /\
  (forall path fs',
     seg_file_name v = Ok path ->
     fs' path = fs path ->
     plan_slot time_stretch a fs' sr i n seg = plan_slot time_stretch a fs sr i n seg).
Proof.
  intros Hidx.
  assert (Hi : forall k, slot_index k seg = v).
  { intros k. unfold slot_index. rewrite Hidx. reflexivity. }
  split; [apply Hi|].
  split; [|split].
  - intros p evs. unfold plan_slot, resolve_slot. rewrite !Hi.
    destruct (slot_window sr seg) as [[[[[s e] d] ss] es]|ex]; cbn [bind]; [|discriminate].
    destruct (es <=? ss); cbn [bind]; [intros [= <- <-]; eauto|].
    destruct (seg_file_name v) as [path|ex]; cbn [bind]; [|discriminate].
    destruct (fs path) as [| |audio]; cbn [bind]; [intros [= <- <-]; eauto|discriminate|].
    destruct (int_truediv _ sr) as [cd|ex]; cbn [bind]; [|discriminate].
    destruct (_ =? 0); cbn [bind]; [intros [= <- <-]; eauto|].
    destruct (align_clip time_stretch a audio cd d (es - ss)) as [[al ev]|ex]; cbn [bind];
      [intros [= <- <-]; eauto|discriminate].
  - intros e0. unfold plan_slot, resolve_slot. rewrite !Hi.
    destruct (slot_window sr seg) as [[[[[s e] d] ss] es]|ex]; cbn [bind]; [|auto].
    destruct (es <=? ss); cbn [bind]; [discriminate|].
    destruct (seg_file_name v) as [path|ex]; cbn [bind]; [|auto].
    destruct (fs path) as [| |audio]; cbn [bind]; [discriminate|auto|].
    destruct (int_truediv _ sr) as [cd|ex]; cbn [bind]; [|auto].
    destruct (_ =? 0); cbn [bind]; [discriminate|].
    destruct (align_clip time_stretch a audio cd d (es - ss)) as [[al ev]|ex]; cbn [bind];
      [discriminate|auto].
  - intros path fs' Hp Hfs. unfold plan_slot.
    rewrite (resolve_slot_fs_ext fs fs' sr i n seg path); [reflexivity| |exact Hfs].
    rewrite Hi. exact Hp.
Qed.

(** X14. An index that the [04d] format rejects ([ValueError] for a float
    or a string, [TypeError] for [null], a list or an object) raises out of
    the iteration, whatever the segments directory holds, unless the slot's
    sample window is empty: then the slot is skipped before the index is
    formatted. *)
Theorem unformattable_index_raises_unless_window_is_empty a fs sr total st n i seg track log
    start_sec end_sec slot_duration start_sample end_sample e :
  slot_window sr (st !!! seg)
    = Ok (start_sec, end_sec, slot_duration, start_sample, end_sample) ->
  seg_file_name (slot_index i (st !!! seg)) = Raise e ->
  (e = ValueError \/ e = TypeError) /\
  process_slot time_stretch a fs sr total st n i seg (track, log)
    = if end_sample <=? start_sample then Ok (track, log) else Raise e.
Proof.
  intros Hw Hp. split.
  { destruct (slot_index i (st !!! seg)); simpl in Hp; try discriminate;
      injection Hp as <-; auto. }
  unfold process_slot, plan_slot, resolve_slot. rewrite Hw. cbn [bind].
  destruct (end_sample <=? start_sample).
  - cbn [bind]. rewrite app_nil_r. reflexivity.
  - rewrite Hp. reflexivity.
Qed.

End IndexFacts.

Section FormatFacts.

(** The digits of an index, read back. *)
Lemma digits_read_back (n : N) :
  option_map N.of_uint (NilEmpty.uint_of_string (NilZero.string_of_uint (N.to_uint n)))
    = Some n.
Proof.
  assert (Hnn : N.to_uint n <> Decimal.Nil).
  { destruct n; simpl; [discriminate|apply DecimalPos.Unsigned.to_uint_nonnil]. }
  assert (Hs : NilZero.string_of_uint (N.to_uint n) = NilEmpty.string_of_uint (N.to_uint n)).
  { destruct (N.to_uint n); [contradiction|reflexivity..]. }
  rewrite Hs, NilEmpty.usu. simpl. f_equal. apply DecimalN.Unsigned.of_to.
Qed.

(** Leading zeros do not change what is read. *)
Lemma zeros_read_back k (s : string) :
  option_map N.of_uint
    (NilEmpty.uint_of_string (string_of_list_ascii (repeat "0"%char k) ++ s))
  = option_map N.of_uint (NilEmpty.uint_of_string s).
Proof.
  induction k as [|k IH]; [reflexivity|].
  simpl. destruct (NilEmpty.uint_of_string _) eqn:E; simpl in *.
  - rewrite <- IH. reflexivity.
  - rewrite <- IH. reflexivity.
Qed.

(** Reading a formatted index back gives the index. *)
Lemma read_format_04d n : read_04d (format_04d n) = Some n.
Proof.
  unfold format_04d. destruct (n <? 0) eqn:E.
  - set (body := (string_of_list_ascii _ ++ _)%string).
    assert (Hb : option_map N.of_uint (NilEmpty.uint_of_string body) = Some (Z.abs_N n)).
    { subst body. rewrite zeros_read_back. apply digits_read_back. }
    change ("-" ++ body)%string with (String "-" body). cbn [read_04d].
    rewrite Hb. simpl. f_equal. lia.
  - set (body := (string_of_list_ascii _ ++ _)%string).
    change ("" ++ body)%string with body.
    assert (Hb : option_map N.of_uint (NilEmpty.uint_of_string body) = Some (Z.abs_N n)).
    { subst body. rewrite zeros_read_back. apply digits_read_back. }
    unfold read_04d. destruct body as [|c body'].
    + simpl in Hb. injection Hb as Hb. simpl. f_equal. lia.
    + destruct (Ascii.eqb c "-") eqn:Ec.
      * apply Ascii.eqb_eq in Ec. subst c. simpl in Hb.
        destruct (NilEmpty.uint_of_string body'); discriminate.
      * assert (Hc : forall (T : Type) (x y : T),
                  match c with
                  | "-"%char => x
                  | _ => y
                  end = y).
        { intros T x y. destruct c as [[] [] [] [] [] [] [] []]; try reflexivity.
          discriminate. }
        rewrite Hc, Hb. simpl. f_equal. lia.
Qed.

(** Up to 9999 the digits fill the width with the zeros. *)
Lemma digits_of_small_index (n : Z) :
  0 <= n <= 9999 -> String.length (format_04d n) = 4%nat.
Proof.
  intros H.
  assert (Hall : forallb (fun k => Nat.eqb (String.length (format_04d (Z.of_nat k))) 4)
                   (seq 0 (Z.to_nat 10000)) = true) by (vm_compute; reflexivity).
  rewrite forallb_forall in Hall.
  specialize (Hall (Z.to_nat n)). rewrite Z2Nat.id in Hall by lia.
  apply Nat.eqb_eq. apply Hall. apply in_seq. lia.
Qed.

(** Lengths of the pieces of a formatted index. *)
Lemma length_append (s t : string) :
  String.length (s ++ t) = (String.length s + String.length t)%nat.
Proof. induction s as [|c s IH]; simpl; [reflexivity|]. rewrite IH. reflexivity. Qed.

Lemma length_zeros k : String.length (string_of_list_ascii (repeat "0"%char k)) = k.
Proof. induction k as [|k IH]; simpl; [reflexivity|]. rewrite IH. reflexivity. Qed.

(** A common suffix can be taken off. *)
Lemma append_cancel_r (s : string) :
  forall a b : string, (a ++ s)%string = (b ++ s)%string -> a = b.
Proof.
  induction a as [|c a IH]; intros [|c' b] H.
  - reflexivity.
  - apply (f_equal String.length) in H. rewrite !length_append in H. simpl in H. lia.
  - apply (f_equal String.length) in H. rewrite !length_append in H. simpl in H. lia.
  - simpl in H. injection H as -> H. f_equal. apply IH. exact H.
Qed.

(** X15. An integer index [n] is looked up as [seg_] followed by [n] in
    decimal, zero-padded to at least four characters (exactly four for
    [0 <= n <= 9999]), followed by [.mp3]; two indices give the same file
    name only when they are equal. *)
Theorem clip_file_name_identifies_the_index (n m : Z) :
  seg_file_name (JInt n) = Ok ("seg_" ++ format_04d n ++ ".mp3")%string /\
  String.eqb (format_04d n) (format_04d m) = (n =? m) /\
  (seg_file_name (JInt n) = seg_file_name (JInt m) <-> n = m) /\
  (4 <= String.length (format_04d n))%nat /\
  (0 <= n <= 9999 -> String.length (format_04d n) = 4%nat).
Proof.
  split; [reflexivity|].
  assert (Hinj : format_04d n = format_04d m -> n = m).
  { intros H. pose proof (read_format_04d n) as Hn. rewrite H, read_format_04d in Hn.
    congruence. }
  split.
  { destruct (String.eqb_spec (format_04d n) (format_04d m)) as [E|E].
    - symmetry. apply Z.eqb_eq. apply Hinj. exact E.
    - symmetry. apply Z.eqb_neq. intros ->. apply E. reflexivity. }
  split.
  { split; [|intros ->; reflexivity].
    simpl. intros [= H]. apply Hinj. eapply append_cancel_r. exact H. }
  split.
  { unfold format_04d. rewrite !length_append, length_zeros.
    destruct (n <? 0); simpl; lia. }
  apply digits_of_small_index.
Qed.

End FormatFacts.

(** ** The clip key of a record without an index *)

Section ClipKeyFacts.

Variable float_of_string : string -> option float.
Variable time_stretch : list float -> float -> list float.

Import PyFloat PySeq PyFloatFacts PySeqFacts.



(** Nothing is strictly below itself. *)
Lemma ltb_irrefl a : PrimFloat.ltb a a = false.
Proof.
  destruct (PrimFloat.ltb a a) eqn:E; [|reflexivity].
  pose proof (ltb_asym _ _ E). congruence.
Qed.






End ClipKeyFacts.

(** ** The loader *)

Section LoaderFacts.

Variable strip : string -> string.
Variable json_loads : string -> result jvalue.

Abbreviation load := (load_translations_jsonl strip json_loads).

(** The loader on a concatenation. *)
Lemma load_app l1 l2 :
  load (l1 ++ l2) =
    (let* s1 := load l1 in
     let* s2 := load l2 in
     Ok (s1 ++ s2)).
Proof.
  induction l1 as [|line l1 IH]; simpl.
  - destruct (load l2); reflexivity.
  - destruct (String.eqb (strip line) ""); [exact IH|].
    destruct (json_loads (strip line)) as [obj|e]; cbn [bind]; [|reflexivity].
    rewrite IH. destruct (load l1) as [s1|e]; cbn [bind]; [|reflexivity].
    destruct (load l2); reflexivity.
Qed.

(** X16. The loader skips every line that is empty after the strip: the
    result is the result on the other lines alone, and a completed load
    returns one parsed object for each of them, in file order. *)
Theorem blank_lines_are_skipped lines :
  load lines = load (List.filter (fun line => negb (blank strip line)) lines) /\
  forall segments,
    load lines = Ok segments ->
    Forall2 (fun line obj => json_loads (strip line) = Ok obj)
      (List.filter (fun line => negb (blank strip line)) lines) segments.
Proof.
  split.
  - induction lines as [|line rest IH]; [reflexivity|].
    cbn [load_translations_jsonl List.filter]. unfold blank at 1.
    destruct (String.eqb (strip line) "") eqn:E; cbn [negb]; [exact IH|].
    cbn [load_translations_jsonl]. rewrite E, IH. reflexivity.
  - induction lines as [|line rest IH]; intros segments H.
    + injection H as <-. constructor.
    + cbn [load_translations_jsonl List.filter] in *. unfold blank at 1.
      destruct (String.eqb (strip line) "") eqn:E; cbn [negb]; [apply IH; exact H|].
      inv_bind H as obj E1. inv_bind H as segs E2. injection H as <-.
      constructor; [exact E1|apply IH; exact E2].
Qed.

(** X17. The loader has no handler: the first line that is not empty and
    that [json.loads] rejects raises out of the load, whatever follows it. *)
Theorem malformed_line_aborts_the_load pre line post segments e :
  load pre = Ok segments ->
  blank strip line = false ->
  json_loads (strip line) = Raise e ->
  load (pre ++ line :: post) = Raise e.
Proof.
  intros Hpre Hb He. rewrite load_app, Hpre. cbn [bind load_translations_jsonl].
  unfold blank in Hb. rewrite Hb, He. reflexivity.
Qed.

End LoaderFacts.

Section EdgeRuns.

Import Demo Edge.

Lemma slot_within_track_is_cut_at_end_witness :
  plan_slot flip_stretch demo_args whole_clip 4 1 1 (built demo_args tail_slot [0%nat] !!! 0%nat)
    = Ok (Place 8 8 (replicate 8 (-1)%float), [SegInfo 1 1 (JInt 1) 2 4 2; StretchRate 1.3]) /\
  process_slot flip_stretch demo_args whole_clip 4 12 (built demo_args tail_slot [0%nat])
      1 1 0%nat (replicate 12 0%float, [])
    = Ok (replicate 8 0%float ++ replicate 4 (-1)%float,
          [SegInfo 1 1 (JInt 1) 2 4 2; StretchRate 1.3]).
Proof.
  assert (Hp : plan_slot flip_stretch demo_args whole_clip 4 1 1
                 (built demo_args tail_slot [0%nat] !!! 0%nat)
               = Ok (Place 8 8 (replicate 8 (-1)%float),
                     [SegInfo 1 1 (JInt 1) 2 4 2; StretchRate 1.3]))
    by (vm_compute; reflexivity).
  split; [exact Hp|].
  exact (slot_within_track_is_cut_at_end flip_stretch demo_args whole_clip 4 12 _ 1 1 0%nat
           (replicate 12 0%float) [] 8 8 _ _ eq_refl Hp ltac:(lia)).
Defined.

Lemma slot_past_track_end_witness :
  plan_slot flip_stretch demo_args whole_clip 4 1 1 (built demo_args past_end [0%nat] !!! 0%nat)
    = Ok (Place 14 6 (replicate 6 (-1)%float),
          [SegInfo 1 1 (JInt 1) 3.5 5 1.5; StretchRate 1.3]) /\
  process_slot flip_stretch demo_args whole_clip 4 12 (built demo_args past_end [0%nat])
      1 1 0%nat (replicate 12 0%float, [])
    = Raise ValueError.
Proof.
  assert (Hp : plan_slot flip_stretch demo_args whole_clip 4 1 1
                 (built demo_args past_end [0%nat] !!! 0%nat)
               = Ok (Place 14 6 (replicate 6 (-1)%float),
                     [SegInfo 1 1 (JInt 1) 3.5 5 1.5; StretchRate 1.3]))
    by (vm_compute; reflexivity).
  split; [exact Hp|].
  exact (slot_past_track_end flip_stretch demo_args whole_clip 4 12 _ 1 1 0%nat
           (replicate 12 0%float) [] 14 6 _ _ eq_refl Hp ltac:(lia)).
Defined.

Lemma slot_across_time_zero_raises_witness :
  plan_slot flip_stretch demo_args whole_clip 4 1 1
      (built demo_args across_zero [0%nat] !!! 0%nat)
    = Ok (Place (-2) 6 (replicate 6 (-1)%float),
          [SegInfo 1 1 (JInt 1) (-0.5) 1 1.5; StretchRate 1.3]) /\
  process_slot flip_stretch demo_args whole_clip 4 12 (built demo_args across_zero [0%nat])
      1 1 0%nat (replicate 12 0%float, [])
    = Raise ValueError.
Proof.
  assert (Hp : plan_slot flip_stretch demo_args whole_clip 4 1 1
                 (built demo_args across_zero [0%nat] !!! 0%nat)
               = Ok (Place (-2) 6 (replicate 6 (-1)%float),
                     [SegInfo 1 1 (JInt 1) (-0.5) 1 1.5; StretchRate 1.3]))
    by (vm_compute; reflexivity).
  split; [exact Hp|].
  exact (slot_across_time_zero_raises flip_stretch demo_args whole_clip 4 12 _ 1 1 0%nat
           (replicate 12 0%float) [] (-2) 6 _ _ eq_refl Hp
           ltac:(lia) ltac:(lia) ltac:(lia) ltac:(lia)).
Defined.

Lemma slot_before_time_zero_wraps_witness :
  plan_slot flip_stretch demo_args whole_clip 4 1 1
      (built demo_args before_zero [0%nat] !!! 0%nat)
    = Ok (Place (-8) 4 (replicate 4 (-1)%float),
          [SegInfo 1 1 (JInt 1) (-2) (-1) 1; StretchRate 1.3]) /\
  process_slot flip_stretch demo_args whole_clip 4 12 (built demo_args before_zero [0%nat])
      1 1 0%nat (replicate 12 0%float, [])
    = Ok (replicate 4 0%float ++ replicate 4 (-1)%float ++ replicate 4 0%float,
          [SegInfo 1 1 (JInt 1) (-2) (-1) 1; StretchRate 1.3]).
Proof.
  assert (Hp : plan_slot flip_stretch demo_args whole_clip 4 1 1
                 (built demo_args before_zero [0%nat] !!! 0%nat)
               = Ok (Place (-8) 4 (replicate 4 (-1)%float),
                     [SegInfo 1 1 (JInt 1) (-2) (-1) 1; StretchRate 1.3]))
    by (vm_compute; reflexivity).
  split; [exact Hp|].
  exact (slot_before_time_zero_wraps flip_stretch demo_args whole_clip 4 12 _ 1 1 0%nat
           (replicate 12 0%float) [] (-8) 4 _ _ eq_refl Hp ltac:(lia) ltac:(lia)).
Defined.

(** The slots [(0,1)] and [(1,2.5)] of the three-slot store do not overlap. *)
Lemma disjoint_slots_commute_witness :
  plan_slot flip_stretch demo_args two_clips 4 1 3
      (built demo_args three_slots [0%nat; 1%nat; 2%nat] !!! 0%nat)
    = Ok (Place 0 4 (replicate 4 1%float), [SegInfo 1 3 (JInt 1) 0 1 1]) /\
  plan_slot flip_stretch demo_args two_clips 4 2 3
      (built demo_args three_slots [0%nat; 1%nat; 2%nat] !!! 1%nat)
    = Ok (Place 4 6 [-2; -2; -2; -2; 0; 0]%float,
          [SegInfo 2 3 (JInt 2) 1 2.5 1.5; StretchRate 0.7]) /\
  forall t1 log1 t2 log2,
    (let* s := process_slot flip_stretch demo_args two_clips 4 12
                 (built demo_args three_slots [0%nat; 1%nat; 2%nat]) 3 1 0%nat
                 (replicate 12 0%float, []) in
     process_slot flip_stretch demo_args two_clips 4 12
       (built demo_args three_slots [0%nat; 1%nat; 2%nat]) 3 2 1%nat s) = Ok (t1, log1) ->
    (let* s := process_slot flip_stretch demo_args two_clips 4 12
                 (built demo_args three_slots [0%nat; 1%nat; 2%nat]) 3 2 1%nat
                 (replicate 12 0%float, []) in
     process_slot flip_stretch demo_args two_clips 4 12
       (built demo_args three_slots [0%nat; 1%nat; 2%nat]) 3 1 0%nat s) = Ok (t2, log2) ->
    t1 = t2.
Proof.
  assert (Hi : plan_slot flip_stretch demo_args two_clips 4 1 3
                 (built demo_args three_slots [0%nat; 1%nat; 2%nat] !!! 0%nat)
               = Ok (Place 0 4 (replicate 4 1%float), [SegInfo 1 3 (JInt 1) 0 1 1]))
    by (vm_compute; reflexivity).
  assert (Hj : plan_slot flip_stretch demo_args two_clips 4 2 3
                 (built demo_args three_slots [0%nat; 1%nat; 2%nat] !!! 1%nat)
               = Ok (Place 4 6 [-2; -2; -2; -2; 0; 0]%float,
                     [SegInfo 2 3 (JInt 2) 1 2.5 1.5; StretchRate 0.7]))
    by (vm_compute; reflexivity).
  split; [exact Hi|]. split; [exact Hj|].
  exact (proj2 (disjoint_slots_commute flip_stretch demo_args two_clips 4 12 _ 3 1 2
                  0%nat 1%nat (replicate 12 0%float) [] 0 4 _ _ 4 6 _ _
                  eq_refl Hi Hj ltac:(lia) ltac:(lia) ltac:(lia))).
Defined.

(** One slot over the first second of a three-second track: sample 5 is
    outside it. *)
Lemma uncovered_positions_are_silent_witness :
  assemble flip_stretch demo_args first_clip 4 12 (built demo_args one_slot [0%nat]) [0%nat]
    = Ok (replicate 4 1%float ++ replicate 8 0%float, [SegInfo 1 1 (JInt 1) 0 1 1]) /\
  (replicate 4 1%float ++ replicate 8 0%float) !! Z.to_nat 5 = Some 0%float.
Proof.
  assert (H : assemble flip_stretch demo_args first_clip 4 12
                (built demo_args one_slot [0%nat]) [0%nat]
              = Ok (replicate 4 1%float ++ replicate 8 0%float,
                    [SegInfo 1 1 (JInt 1) 0 1 1]))
    by (vm_compute; reflexivity).
  split; [exact H|].
  refine (uncovered_positions_are_silent flip_stretch demo_args first_clip 4 12 _ _ _ _ 5
            H ltac:(lia) _).
  intros k sk pk evk Hk Hp. destruct k as [|k]; [|discriminate].
  injection Hk as <-. vm_compute in Hp. injection Hp as <- _. reflexivity.
Defined.

Lemma finalization_is_a_no_op_witness :
  0 <= 12 /\
  assemble flip_stretch demo_args first_clip 4 12 (built demo_args one_slot [0%nat]) [0%nat]
    = assemble_loop flip_stretch demo_args first_clip 4 12 (built demo_args one_slot [0%nat])
        (Z.of_nat (length [0%nat])) 1 [0%nat] (replicate (Z.to_nat 12) 0%float, []).
Proof.
  split; [lia|].
  exact (finalization_is_a_no_op flip_stretch demo_args first_clip 4 12 _ [0%nat]
           ltac:(lia)).
Defined.

(** A clip of three samples in a slot of four, and a zero slot duration
    with a clip of five seconds. *)
Lemma aligned_buffer_has_slot_length_witness :
  0 <= 4 /\
  is_ok (align_clip flip_stretch demo_args [0.5; 0.25; 0.125]%float 0.75 1 4) = true /\
  (align_clip flip_stretch demo_args (replicate 20 1%float) 5 0 4 = Raise ZeroDivisionError ->
   need_stretch demo_args 0 5 = Ok true).
Proof.
  split; [lia|]. split.
  - exact (proj2 (proj2 (aligned_buffer_has_slot_length flip_stretch demo_args
                           [0.5; 0.25; 0.125]%float 0.75 1 4 ltac:(lia))) eq_refl).
  - intros H.
    exact (proj2 (proj2 (proj1 (proj2 (aligned_buffer_has_slot_length flip_stretch demo_args
                           (replicate 20 1%float) 5 0 4 ltac:(lia))) _ H))).
Defined.

Lemma loop_reads_the_times_of_the_input_record_witness :
  build_processed no_parse demo_args late_first [0%nat; 1%nat]
    = Ok (built demo_args late_first [0%nat; 1%nat], [1%nat; 0%nat]) /\
  exists start_sec end_sec,
    get_slot_times no_parse (late_first !!! 0%nat) = Ok (start_sec, end_sec) /\
    slot_window 4 (built demo_args late_first [0%nat; 1%nat] !!! 0%nat) =
      (let* start_scaled := PyFloat.mul_int start_sec 4 in
       let* start_sample := PyFloat.py_round start_scaled in
       let* end_scaled := PyFloat.mul_int end_sec 4 in
       let* end_sample := PyFloat.py_round end_scaled in
       Ok (start_sec, end_sec, PyFloat.py_max 0%float (end_sec - start_sec)%float,
           start_sample, end_sample)).
Proof.
  assert (H : build_processed no_parse demo_args late_first [0%nat; 1%nat]
              = Ok (built demo_args late_first [0%nat; 1%nat], [1%nat; 0%nat]))
    by (vm_compute; reflexivity).
  split; [exact H|].
  destruct (loop_reads_the_times_of_the_input_record no_parse demo_args late_first
              [0%nat; 1%nat] _ _ 0%nat 4 H
              ltac:(apply list_elem_of_further, list_elem_of_here))
    as (s & e & Ht & _ & _ & Hw).
  exists s, e. split; [exact Ht|exact Hw].
Defined.

(** Of the records (5,6) and (0,1) the second starts earlier and is
    processed first. *)
Lemma earlier_start_is_processed_first_witness :
  build_processed no_parse demo_args late_first [0%nat; 1%nat]
    = Ok (built demo_args late_first [0%nat; 1%nat], [1%nat; 0%nat]) /\
  exists pre mid post, [1%nat; 0%nat] = pre ++ 1%nat :: mid ++ 0%nat :: post.
Proof.
  assert (H : build_processed no_parse demo_args late_first [0%nat; 1%nat]
              = Ok (built demo_args late_first [0%nat; 1%nat], [1%nat; 0%nat]))
    by (vm_compute; reflexivity).
  split; [exact H|].
  refine (earlier_start_is_processed_first no_parse demo_args late_first [0%nat; 1%nat]
            _ _ 1%nat 0%nat H _ _ _ _).
  - repeat constructor; vm_compute; reflexivity.
  - apply list_elem_of_further, list_elem_of_here.
  - apply list_elem_of_here.
  - vm_compute. reflexivity.
Defined.

Lemma index_field_selects_the_clip_witness :
  (built demo_args (with_index (JInt 7)) [0%nat] !!! 0%nat) !! "index"%string
    = Some (JInt 7) /\
  slot_index 1 (built demo_args (with_index (JInt 7)) [0%nat] !!! 0%nat) = JInt 7 /\
  (plan_slot flip_stretch demo_args two_clips 4 1 1
       (built demo_args (with_index (JInt 7)) [0%nat] !!! 0%nat)
     = Ok (Skip, [WarnMissing (JInt 7) "seg_0007.mp3"]) ->
   exists evs,
     plan_slot flip_stretch demo_args two_clips 4 2 5
         (built demo_args (with_index (JInt 7)) [0%nat] !!! 0%nat)
       = Ok (Skip, evs)).
Proof.
  assert (H : (built demo_args (with_index (JInt 7)) [0%nat] !!! 0%nat) !! "index"%string
              = Some (JInt 7)) by (vm_compute; reflexivity).
  split; [exact H|].
  split.
  - exact (proj1 (index_field_selects_the_clip flip_stretch demo_args two_clips 4 _ _
                    1 1 2 5 H)).
  - exact (proj1 (proj2 (index_field_selects_the_clip flip_stretch demo_args two_clips 4 _ _
                           1 1 2 5 H)) _ _).
Defined.

Lemma unformattable_index_raises_unless_window_is_empty_witness :
  slot_window 4 (built demo_args (with_index (JStr "7")) [0%nat] !!! 0%nat)
    = Ok (0%float, 1%float, 1%float, 0, 4) /\
  seg_file_name (slot_index 1 (built demo_args (with_index (JStr "7")) [0%nat] !!! 0%nat))
    = Raise ValueError /\
  process_slot flip_stretch demo_args whole_clip 4 12
      (built demo_args (with_index (JStr "7")) [0%nat]) 1 1 0%nat (replicate 12 0%float, [])
    = Raise ValueError.
Proof.
  assert (Hw : slot_window 4 (built demo_args (with_index (JStr "7")) [0%nat] !!! 0%nat)
               = Ok (0%float, 1%float, 1%float, 0, 4)) by (vm_compute; reflexivity).
  assert (Hp : seg_file_name
                 (slot_index 1 (built demo_args (with_index (JStr "7")) [0%nat] !!! 0%nat))
               = Raise ValueError) by (vm_compute; reflexivity).
  split; [exact Hw|]. split; [exact Hp|].
  exact (proj2 (unformattable_index_raises_unless_window_is_empty flip_stretch demo_args
                  whole_clip 4 12 _ 1 1 0%nat (replicate 12 0%float) [] _ _ _ _ _ _ Hw Hp)).
Defined.

Lemma nan_time_aborts_the_run_witness :
  build_processed no_parse demo_args nan_start [0%nat]
    = Ok (built demo_args nan_start [0%nat], [0%nat]) /\
  get_slot_times no_parse (nan_start !!! 0%nat) = Ok (nan, 1%float) /\
  process_slot flip_stretch demo_args whole_clip 4 12 (built demo_args nan_start [0%nat])
      1 1 0%nat (replicate 12 0%float, [])
    = Raise ValueError.
Proof.
  assert (H : build_processed no_parse demo_args nan_start [0%nat]
              = Ok (built demo_args nan_start [0%nat], [0%nat]))
    by (vm_compute; reflexivity).
  assert (Ht : get_slot_times no_parse (nan_start !!! 0%nat) = Ok (nan, 1%float))
    by (vm_compute; reflexivity).
  split; [exact H|]. split; [exact Ht|].
  exact (nan_time_aborts_the_run no_parse flip_stretch demo_args whole_clip 4 12 1 1
           nan_start [0%nat] _ _ 0%nat (replicate 12 0%float) [] nan 1%float 4%float
           H ltac:(apply list_elem_of_here) Ht eq_refl (or_introl eq_refl)).
Defined.

End EdgeRuns.

Section LoaderRuns.

Import Edge.

(** A file with an object, an empty line, a line that is not JSON and one
    more object: the load raises at the third line. *)
Lemma malformed_line_aborts_the_load_witness :
  load_translations_jsonl strip_newline loads_empty_object good_lines = Ok [JObj []] /\
  blank strip_newline "oops" = false /\
  loads_empty_object (strip_newline "oops") = Raise ValueError /\
  load_translations_jsonl strip_newline loads_empty_object
      (good_lines ++ "oops"%string :: good_lines)
    = Raise ValueError.
Proof.
  split; [reflexivity|]. split; [reflexivity|]. split; [reflexivity|].
  exact (malformed_line_aborts_the_load strip_newline loads_empty_object
           good_lines "oops"%string good_lines [JObj []] ValueError
           eq_refl eq_refl eq_refl).
Defined.

End LoaderRuns.

(** ** The timeline and the clip key on sample records *)

Section ClipKeyRuns.

Import Demo Edge.

(** C9 as stated fails: a [null] under [start_sec] is a present value that
    is not numeric, and so is a plain start that does not parse beside a
    complete [_sec] pair; neither is read, and the call returns. *)
Lemma bad_value_outside_the_read_pair_is_ignored :
  null_start_sec !! "start_sec"%string = Some JNull /\
  py_float no_parse JNull = Raise TypeError /\
  get_slot_times no_parse null_start_sec = Ok (3, 4)%float /\
  bad_plain_start !! "start"%string = Some (JStr "soon") /\
  py_float no_parse (JStr "soon") = Raise ValueError /\
  get_slot_times no_parse bad_plain_start = Ok (1, 2.5)%float.
Proof. repeat split; vm_compute; reflexivity. Qed.


End ClipKeyRuns.
